(** * Snapshot management for EBS volumes: retention tiers and pruning

    A shallow embedding of [main.py] (class [SnapshotManagement] and
    [lambda_handler]) together with the properties of its tier
    classification, of its deletion selection and of its run status. *)

From Stdlib Require Import ZArith List Bool Ascii String Lia Permutation Sorted.
From stdpp Require Import base gmap list strings.

Local Open Scope string_scope.
Local Open Scope list_scope.
Local Open Scope Z_scope.

(** ** Data *)

(** One entry of a snapshot's ["Tags"] list: [{"Key": ..., "Value": ...}]. *)
Record Tag := mkTag { Key : string; Value : string }.

(** A snapshot as returned by [describe_snapshots]. ["Tags"] may be missing
    from the dictionary, hence the option; ["StartTime"] is a point in time,
    kept as a number of seconds. *)
Record Snapshot := mkSnapshot {
  SnapshotId : string;
  State : string;
  StartTime : Z;
  Tags : option (list Tag)
}.

(** The fields of [datetime.now()] that [__get_backup_tag] reads. *)
Record DateTime := mkDateTime {
  dt_month : Z;
  dt_day : Z;
  dt_hour : Z;
  dt_dayname : string
}.

(** ** Pure helpers of [SnapshotManagement] *)

(** [__get_snapshots_by_state] *)
Definition get_snapshots_by_state (snapshots : list Snapshot) (state : string)
  : list Snapshot :=
  List.filter (fun x => String.eqb (State x) state) snapshots.

Definition has_Tags (x : Snapshot) : bool :=
  match Tags x with Some _ => true | None => false end.

Definition tags_of (x : Snapshot) : list Tag :=
  match Tags x with Some ts => ts | None => [] end.

(** ["BackupTag" in [y["Key"] for y in x["Tags"]]] *)
Definition has_BackupTag_key (x : Snapshot) : bool :=
  existsb (fun k => String.eqb "BackupTag" k) (map Key (tags_of x)).

Definition is_backup_tag (backup_tag : string) (y : Tag) : bool :=
  String.eqb (Key y) "BackupTag" && String.eqb (Value y) backup_tag.

(** [__get_snapshots_by_backup_tag]: the nested comprehension yields [x] once
    for every tag [y] of [x] that is a ["BackupTag"] with the wanted value. *)
Definition get_snapshots_by_backup_tag (snapshots : list Snapshot)
    (backup_tag : string) : list Snapshot :=
  flat_map
    (fun x => flat_map (fun y => if is_backup_tag backup_tag y then [x] else [])
                       (tags_of x))
    (List.filter has_BackupTag_key (List.filter has_Tags snapshots)).

(** [sorted(snapshots, key=lambda x: x["StartTime"], reverse=True)]: newest
    first; the sort is stable, elements with equal keys keep their order. *)
Fixpoint insert_newest_first (x : Snapshot) (l : list Snapshot) : list Snapshot :=
  match l with
  | [] => [x]
  | y :: l' =>
      if StartTime x <? StartTime y then y :: insert_newest_first x l'
      else x :: l
  end.

Fixpoint sorted_newest_first (l : list Snapshot) : list Snapshot :=
  match l with
  | [] => []
  | x :: l' => insert_newest_first x (sorted_newest_first l')
  end.

(** A Python slice [l[start:]]: a negative [start] counts from the end, and
    the bounds are clipped to the list. *)
Definition slice_from {A} (l : list A) (start : Z) : list A :=
  let len := Z.of_nat (length l) in
  let i := if start <? 0 then Z.max 0 (start + len) else Z.min start len in
  drop (Z.to_nat i) l.

(** [__get_oldest_snapshot_ids]; note that [-0 = 0], so that asking for [0]
    snapshots slices from the start of the list. *)
Definition get_oldest_snapshot_ids (snapshots : list Snapshot)
    (number_of_snapshots : Z) : list string :=
  let snapshots := map SnapshotId (sorted_newest_first snapshots) in
  slice_from snapshots (- number_of_snapshots).

(** The tier labels, in the order [__delete_old_snapshots] visits them. *)
Definition backup_tags : list string := ["h"; "d"; "w"; "m"; "y"].

(** The [snapshot_ids] that one iteration of the loop of
    [__delete_old_snapshots] computes for [tag] (lines 156-171), before it
    requests their deletion. *)
Definition select_snapshot_ids (retention_policy : gmap string Z)
    (volume_snapshots : list Snapshot) (tag : string) : list string :=
  let snapshots := get_snapshots_by_backup_tag volume_snapshots tag in
  match retention_policy !! tag with
  | Some keep =>
      let diff := Z.of_nat (length snapshots) - keep in
      if 0 <? diff then get_oldest_snapshot_ids snapshots diff else []
  | None =>
      if 0 <? Z.of_nat (length snapshots)
      then get_oldest_snapshot_ids snapshots 0 else []
  end.

(** All the identifiers whose deletion a run of [__delete_old_snapshots]
    requests for one volume, in request order. *)
Definition deletion_selection (retention_policy : gmap string Z)
    (volume_snapshots : list Snapshot) : list string :=
  flat_map (select_snapshot_ids retention_policy volume_snapshots) backup_tags.

(** ** The classifier *)

(** The attributes of [self] that the methods below read. [snapshots] is the
    dictionary built by [__get_all_snapshots]; a Python dictionary iterates
    in insertion order, so it is kept as a list of items. *)
Definition odict (V : Type) : Type := list (string * V).

Fixpoint dict_get {V} (k : string) (d : odict V) : option V :=
  match d with
  | [] => None
  | (k', v) :: d' => if String.eqb k' k then Some v else dict_get k d'
  end.

(** [d[k] = v]: an existing key keeps its position, a new one goes last. *)
Fixpoint dict_set {V} (k : string) (v : V) (d : odict V) : odict V :=
  match d with
  | [] => [(k, v)]
  | (k', v') :: d' =>
      if String.eqb k' k then (k', v) :: d' else (k', v') :: dict_set k v d'
  end.

Record Self := mkSelf {
  start_of_day : Z;
  start_of_week : string;
  start_of_month : Z;
  start_of_year : Z;
  product_domain : string;
  service : string;
  cluster : string;
  application : string;
  retention_policy : string;
  volume_ids : list string;
  snapshots : odict (list Snapshot)
}.

(** The boundary tests of [__get_backup_tag], in the order it tries them. *)
Definition yearly_boundary (self : Self) (now : DateTime) : bool :=
  (dt_hour now =? start_of_day self) && (dt_day now =? start_of_month self)
  && (dt_month now =? start_of_year self).

Definition monthly_boundary (self : Self) (now : DateTime) : bool :=
  (dt_hour now =? start_of_day self) && (dt_day now =? start_of_month self).

Definition weekly_boundary (self : Self) (now : DateTime) : bool :=
  (dt_hour now =? start_of_day self)
  && String.eqb (dt_dayname now) (start_of_week self).

Definition daily_boundary (self : Self) (now : DateTime) : bool :=
  dt_hour now =? start_of_day self.

(** [__get_backup_tag], after [current_datetime = datetime.now()]. *)
Definition backup_tag_at (self : Self) (current_datetime : DateTime) : string :=
  if yearly_boundary self current_datetime then "y"
  else if monthly_boundary self current_datetime then "m"
  else if weekly_boundary self current_datetime then "w"
  else if daily_boundary self current_datetime then "d"
  else "h".

(** The classification as section 4.1 of the specification words it, over a
    configuration that supplies the four clock boundaries. *)
Record BackupConfig := mkBackupConfig {
  dayStartHour : Z;
  weekStartDay : string;
  monthStartDay : Z;
  yearStartMonth : Z
}.

Definition classify (now : DateTime) (config : BackupConfig) : string :=
  if (dt_hour now =? dayStartHour config)
     && (dt_day now =? monthStartDay config)
     && (dt_month now =? yearStartMonth config) then "y"
  else if (dt_hour now =? dayStartHour config)
          && (dt_day now =? monthStartDay config) then "m"
  else if (dt_hour now =? dayStartHour config)
          && String.eqb (dt_dayname now) (weekStartDay config) then "w"
  else if dt_hour now =? dayStartHour config then "d"
  else "h".

(** The boundaries that an instance of [SnapshotManagement] works with. *)
Definition config_of (self : Self) : BackupConfig :=
  {| dayStartHour := start_of_day self;
     weekStartDay := start_of_week self;
     monthStartDay := start_of_month self;
     yearStartMonth := start_of_year self |}.

(** ** Effects *)

(** What a remote request, or [json.loads], gives back: a value, or an
    exception with its text. *)
Inductive result (A : Type) : Type :=
  | Ok (a : A)
  | Err (e : string).
Arguments Ok {A} a.
Arguments Err {A} e.

Definition is_ok {A} (r : result A) : bool :=
  match r with Ok _ => true | Err _ => false end.

(** The collaborators of the program: the EC2 client and resource, the clock
    and the JSON decoder. The remote service has a state of its own, which
    every request may change. *)
Class Runtime := {
  World : Type;
  ec2_describe_snapshots : string -> World -> result (list Snapshot) * World;
  ec2_create_snapshot : string -> list Tag -> World -> result string * World;
  ec2_delete_snapshot : string -> World -> result unit * World;
  datetime_now : World -> DateTime * World;
  json_loads : string -> result (gmap string Z)
}.

(** The remote requests a run makes, recorded with their outcome. *)
Inductive Request : Type :=
  | DescribeSnapshots (volume_id : string)
  | CreateSnapshot (volume_id : string) (tags : list Tag)
  | DeleteSnapshot (snapshot_id : string).

Record Call := mkCall { request : Request; succeeded : bool }.

Inductive Level : Type := INFO | WARNING | ERROR.

Record LogRecord := mkLogRecord { levelno : Level; msg : string }.

(** The value [execute] builds: [{"created": {...}, "deleted": {...}}]. *)
Record Report := mkReport {
  created : odict string;
  deleted : odict (list string)
}.

(** How a computation ends: with a value, with [exit(code)], or with an
    exception that nothing catches. *)
Inductive outcome (A : Type) : Type :=
  | Return (a : A)
  | Exit (code : Z)
  | Raise (e : string).
Arguments Return {A} a.
Arguments Exit {A} code.
Arguments Raise {A} e.

Section Program.
Context {R : Runtime}.

(** The state a run threads: the remote service, the requests made so far
    (oldest first), the log and what was printed. *)
Record Machine := mkMachine {
  world : World;
  calls : list Call;
  logged : list LogRecord;
  printed : list Report
}.

Definition M (A : Type) : Type := Machine -> outcome A * Machine.

Definition ret {A} (a : A) : M A := fun s => (Return a, s).

Definition bind {A B} (m : M A) (k : A -> M B) : M B :=
  fun s =>
    match m s with
    | (Return a, s') => k a s'
    | (Exit code, s') => (Exit code, s')
    | (Raise e, s') => (Raise e, s')
    end.

Definition exit {A} (code : Z) : M A := fun s => (Exit code, s).

Definition raise {A} (e : string) : M A := fun s => (Raise e, s).

(** A remote request: performed on the service, then recorded. *)
Definition remote {A} (req : Request) (f : World -> result A * World)
  : M (result A) :=
  fun s =>
    let '(r, w) := f (world s) in
    (Return r,
     {| world := w;
        calls := calls s ++ [mkCall req (is_ok r)];
        logged := logged s;
        printed := printed s |}).

Definition now : M DateTime :=
  fun s =>
    let '(t, w) := datetime_now (world s) in
    (Return t,
     {| world := w; calls := calls s; logged := logged s;
        printed := printed s |}).

Definition print (r : Report) : M unit :=
  fun s =>
    (Return tt,
     {| world := world s; calls := calls s; logged := logged s;
        printed := printed s ++ [r] |}).

Definition loads (text : string) : M (gmap string Z) :=
  match json_loads text with
  | Ok v => ret v
  | Err e => raise e
  end.
End Program.

Notation "x <- m ; k" := (bind m (fun x => k))
  (at level 20, m at level 100, k at level 200, only parsing).
Notation "' x <- m ; k" := (bind m (fun x => k))
  (at level 20, x pattern, m at level 100, k at level 200, only parsing).
Notation "m ;; k" := (bind m (fun _ => k))
  (at level 100, k at level 200, only parsing, right associativity).

Section Methods.
Context {R : Runtime}.

(** [for x in l: acc = body(x, acc)] *)
Fixpoint for_each {A S} (l : list A) (body : A -> S -> M S) (acc : S) : M S :=
  match l with
  | [] => ret acc
  | x :: l' => acc' <- body x acc ; for_each l' body acc'
  end.

(** [__log] *)
Definition log (self : Self) (log_level : Level) (volume_id message : string)
  : M unit :=
  fun s =>
    let full_message :=
      (product_domain self ++ " - " ++ service self ++ " - " ++ cluster self
       ++ "  - " ++ volume_id ++ " - " ++ message)%string in
    (Return tt,
     {| world := world s; calls := calls s;
        logged := logged s ++ [mkLogRecord log_level full_message];
        printed := printed s |}).

(** The body of the loop of [__get_all_snapshots] (lines 56-87). *)
Definition list_volume (self : Self) (volume_id : string)
    (acc : bool * odict (list Snapshot)) : M (bool * odict (list Snapshot)) :=
  let '(status, ret_) := acc in
  r <- remote (DescribeSnapshots volume_id)
              (ec2_describe_snapshots volume_id) ;
  match r with
  | Ok snapshots =>
      log self INFO volume_id "Snapshots Acquired" ;;
      ret (status, dict_set volume_id snapshots ret_)
  | Err e =>
      log self ERROR volume_id e ;;
      ret (false, ret_)
  end.

(** [__get_all_snapshots] *)
Definition get_all_snapshots (self : Self) : M (odict (list Snapshot)) :=
  ' (status, ret_) <- for_each (volume_ids self) (list_volume self) (true, []) ;
  if negb status then exit 429 else ret ret_.

(** [event[key]] *)
Definition event_get (event : gmap string string) (key : string) : M string :=
  match event !! key with
  | Some v => ret v
  | None => raise ("KeyError: " ++ key)%string
  end.

(** [str.split(",")] *)
Fixpoint split_commas (s : string) : list string :=
  match s with
  | EmptyString => [EmptyString]
  | String c s' =>
      if Ascii.eqb c ","%char then EmptyString :: split_commas s'
      else match split_commas s' with
           | piece :: pieces => String c piece :: pieces
           | [] => [String c EmptyString]
           end
  end.

(** [__init__] *)
Definition init (event : gmap string string) : M Self :=
  let start_of_day := 19 in
  let start_of_week := "Monday" in
  let start_of_month := 1 in
  let start_of_year := 1 in
  product_domain <- event_get event "ProductDomain" ;
  service <- event_get event "Service" ;
  cluster <- event_get event "Cluster" ;
  application <- event_get event "Application" ;
  retention_policy <- event_get event "RetentionPolicy" ;
  volume_ids_text <- event_get event "VolumeIDs" ;
  let self :=
    mkSelf start_of_day start_of_week start_of_month start_of_year
           product_domain service cluster application retention_policy
           (split_commas volume_ids_text) [] in
  snapshots <- get_all_snapshots self ;
  ret (mkSelf start_of_day start_of_week start_of_month start_of_year
              product_domain service cluster application retention_policy
              (split_commas volume_ids_text) snapshots).

(** [__get_backup_tag] *)
Definition get_backup_tag (self : Self) : M string :=
  current_datetime <- now ;
  ret (backup_tag_at self current_datetime).

(** The body of [for snapshot_id in snapshot_ids] (lines 173-192). *)
Definition delete_one (self : Self) (volume_id snapshot_id : string)
    (acc : bool * list string) : M (bool * list string) :=
  let '(status, ret_) := acc in
  r <- remote (DeleteSnapshot snapshot_id)
              (ec2_delete_snapshot snapshot_id) ;
  match r with
  | Ok _ =>
      log self INFO volume_id ("Snapshot Deleted: " ++ snapshot_id)%string ;;
      ret (status, ret_ ++ [snapshot_id])
  | Err e =>
      let message := ("Failed to Delete Snapshot "
                      ++ snapshot_id ++ ": " ++ e)%string in
      log self ERROR volume_id message ;;
      ret (false, ret_ ++ [message])
  end.

(** The body of [for tag in ["h", "d", "w", "m", "y"]] (lines 155-192). *)
Definition delete_tier (self : Self) (volume_id : string)
    (retention_policy : gmap string Z) (tag : string)
    (acc : bool * list string) : M (bool * list string) :=
  match dict_get volume_id (snapshots self) with
  | None => raise ("KeyError: " ++ volume_id)%string
  | Some volume_snapshots =>
      let snapshot_ids :=
        select_snapshot_ids retention_policy volume_snapshots tag in
      for_each snapshot_ids (delete_one self volume_id) acc
  end.

(** [__delete_old_snapshots] *)
Definition delete_old_snapshots (self : Self) (volume_id : string)
  : M (bool * list string) :=
  retention_policy <- loads (retention_policy self) ;
  for_each backup_tags (delete_tier self volume_id retention_policy)
           (true, []).

(** The tags [__create_snapshot] puts on a new snapshot. *)
Definition snapshot_tags (self : Self) (backup_tag : string) : list Tag :=
  [ mkTag "Name" (cluster self);
    mkTag "ProductDomain" (product_domain self);
    mkTag "Service" (service self);
    mkTag "Cluster" (cluster self);
    mkTag "Application" (application self);
    mkTag "BackupTag" backup_tag ].

(** [__create_snapshot] *)
Definition create_snapshot (self : Self) (volume_id : string)
  : M (bool * string) :=
  backup_tag <- get_backup_tag self ;
  let tags := snapshot_tags self backup_tag in
  r <- remote (CreateSnapshot volume_id tags)
              (ec2_create_snapshot volume_id tags) ;
  match r with
  | Ok snapshot_id =>
      log self INFO volume_id ("Snapshot Created: " ++ snapshot_id)%string ;;
      ret (true, snapshot_id)
  | Err e =>
      let message := ("Failed to Create Snapshot: " ++ e)%string in
      log self ERROR volume_id message ;;
      ret (false, message)
  end.

(** The body of the loop of [execute] (lines 255-276). *)
Definition process_volume (self : Self) (item : string * list Snapshot)
    (acc : bool * Report) : M (bool * Report) :=
  let '(volume_id, snapshots) := item in
  let '(final_status, ret_) := acc in
  let pending_snapshots := get_snapshots_by_state snapshots "pending" in
  ' (status, retval) <-
    match pending_snapshots with
    | [] => create_snapshot self volume_id
    | _ :: _ =>
        let message := "Pending Snapshot Detected, Operation Aborted" in
        log self WARNING volume_id message ;;
        ret (true, message)
    end ;
  let ret_ := mkReport (dict_set volume_id retval (created ret_))
                       (deleted ret_) in
  let final_status := final_status && status in
  ' (status, retval) <- delete_old_snapshots self volume_id ;
  let ret_ := mkReport (created ret_)
                       (dict_set volume_id retval (deleted ret_)) in
  let final_status := final_status && status in
  ret (final_status, ret_).

(** [execute] *)
Definition execute (self : Self) : M (bool * Report) :=
  for_each (snapshots self) (process_volume self) (true, mkReport [] []).

(** [lambda_handler] *)
Definition lambda_handler (event : gmap string string) : M Report :=
  snapshot_management <- init event ;
  ' (status, retval) <- execute snapshot_management ;
  print retval ;;
  if status then ret retval else exit (-1).
End Methods.

(** ** Vocabulary of the claims *)

(** [newer_or_equal a b]: [a] was started no earlier than [b]. *)
Definition newer_or_equal (a b : Snapshot) : Prop := StartTime b <= StartTime a.

(** [x] has a tag with this key and this value. *)
Definition carries (x : Snapshot) (key value : string) : Prop :=
  In (mkTag key value) (tags_of x).

(** The identifiers of [ids] that belong to a snapshot of the group of [tag]. *)
Definition restrict_to_group (snaps : list Snapshot) (tag : string)
    (ids : list string) : list string :=
  List.filter
    (fun i => existsb (String.eqb i)
                (map SnapshotId (get_snapshots_by_backup_tag snaps tag)))
    ids.

(** No identifier occurs in the groups of two different tiers: identifiers
    are unique and no snapshot has two [BackupTag] entries. *)
Definition one_tier_per_id (snaps : list Snapshot) : Prop :=
  forall t1 t2 x1 x2,
    In t1 backup_tags -> In t2 backup_tags ->
    In x1 (get_snapshots_by_backup_tag snaps t1) ->
    In x2 (get_snapshots_by_backup_tag snaps t2) ->
    SnapshotId x1 = SnapshotId x2 -> t1 = t2.

(** No ["Tags"] at all, or no tag whose key is ["BackupTag"]. *)
Definition lacks_BackupTag (x : Snapshot) : Prop :=
  Tags x = None \/
  exists ts, Tags x = Some ts /\ forall y, In y ts -> Key y <> "BackupTag".

(** Every ["BackupTag"] entry of [x] has a value outside the five labels. *)
Definition no_tier_label (x : Snapshot) : Prop :=
  forall y, In y (tags_of x) -> Key y = "BackupTag" -> ~ In (Value y) backup_tags.

Definition policy_A : gmap string Z := {[ "h" := 2; "d" := 1 ]}.

Definition tagged (id : string) (started : Z) (tag : string) : Snapshot :=
  mkSnapshot id "completed" started
    (Some [mkTag "Name" "cluster-a"; mkTag "BackupTag" tag]).

Definition snapshots_A : list Snapshot :=
  [ tagged "snap-2" 200 "h"; tagged "snap-3" 300 "h"; tagged "snap-1" 100 "h";
    tagged "snap-w1" 150 "w"; tagged "snap-w2" 50 "w";
    mkSnapshot "snap-bare" "completed" 10 None;
    mkSnapshot "snap-named" "completed" 20 (Some [mkTag "Name" "cluster-a"]);
    tagged "snap-manual" 30 "manual" ].


(** What a recorded request was about, whatever tags it carried. *)
Inductive Operation : Type :=
  | Listing (volume_id : string)
  | Creation (volume_id : string)
  | Deletion (snapshot_id : string).

Definition operation (c : Call) : Operation :=
  match request c with
  | DescribeSnapshots volume_id => Listing volume_id
  | CreateSnapshot volume_id _ => Creation volume_id
  | DeleteSnapshot snapshot_id => Deletion snapshot_id
  end.

(** [self.snapshots[volume_id]], empty for a volume that was not listed. *)
Definition listed_for (self : Self) (volume_id : string) : list Snapshot :=
  match dict_get volume_id (snapshots self) with
  | Some l => l
  | None => []
  end.

(** The requests that processing one item of [self.snapshots] should make:
    a creation unless a snapshot is pending, then the deletion of every
    selected identifier. *)
Definition volume_operations (policy : gmap string Z) (self : Self)
    (item : string * list Snapshot) : list Operation :=
  match get_snapshots_by_state (snd item) "pending" with
  | [] => [Creation (fst item)]
  | _ :: _ => []
  end
  ++ map Deletion (deletion_selection policy (listed_for self (fst item))).

(** The report has an entry for the volume in both dictionaries, the second
    with one line for every identifier selected for deletion. *)
Definition reported (policy : gmap string Z) (self : Self) (report : Report)
    (volume_id : string) : Prop :=
  is_Some (dict_get volume_id (created report))
  /\ exists entries,
       dict_get volume_id (deleted report) = Some entries
       /\ length entries
          = length (deletion_selection policy (listed_for self volume_id)).



(** ** A scripted runtime, for running the program on examples *)

(** A remote service that answers from a script: what each volume lists,
    which requests fail, and what the clock shows. *)
Record Cloud := mkCloud {
  listed : odict (list Snapshot);
  list_failures : list string;
  create_failures : list string;
  delete_failures : list string;
  clock : DateTime
}.

Definition mentions (l : list string) (s : string) : bool :=
  existsb (String.eqb s) l.

(** [json.loads] on the policy texts of the examples. *)
Definition dq : string := String "034"%char EmptyString.

Definition text_h2_d1 : string :=
  ("{" ++ dq ++ "h" ++ dq ++ ": 2, " ++ dq ++ "d" ++ dq ++ ": 1}")%string.

Definition text_h_minus1 : string :=
  ("{" ++ dq ++ "h" ++ dq ++ ": -1}")%string.

Definition policy_negative : gmap string Z := {[ "h" := -1 ]}.

Definition loads_examples (text : string) : result (gmap string Z) :=
  if String.eqb text text_h2_d1 then Ok policy_A
  else if String.eqb text text_h_minus1 then Ok policy_negative
  else Err "JSONDecodeError".

#[local] Instance scripted : Runtime := {|
  World := Cloud;
  ec2_describe_snapshots volume_id w :=
    (if mentions (list_failures w) volume_id then Err "RequestLimitExceeded"
     else Ok (match dict_get volume_id (listed w) with
              | Some l => l
              | None => []
              end),
     w);
  ec2_create_snapshot volume_id tags w :=
    (if mentions (create_failures w) volume_id
     then Err "SnapshotCreationPerVolumeRateExceeded"
     else Ok ("snap-new-" ++ volume_id)%string,
     w);
  ec2_delete_snapshot snapshot_id w :=
    (if mentions (delete_failures w) snapshot_id then Err "InvalidSnapshot.InUse"
     else Ok tt,
     w);
  datetime_now w := (clock w, w);
  json_loads := loads_examples
|}.

(** A run starts with no request made, nothing logged, nothing printed. *)
Definition start {R : Runtime} (w : World) : Machine := mkMachine w [] [] [].

Definition make_event (policy_text volume_ids_text : string)
  : gmap string string :=
  {[ "ProductDomain" := "bei"; "Service" := "beical";
     "Cluster" := "beical-mongod"; "Application" := "mongod";
     "RetentionPolicy" := policy_text; "VolumeIDs" := volume_ids_text ]}.

(** Tuesday 1 January, 02:00 and 19:00; Friday 1 February, 19:00; Monday 4
    and Wednesday 6 February, 19:00. *)
Definition jan1_2am : DateTime := mkDateTime 1 1 2 "Tuesday".
Definition jan1_7pm : DateTime := mkDateTime 1 1 19 "Tuesday".
Definition feb1_7pm : DateTime := mkDateTime 2 1 19 "Friday".
Definition feb4_7pm : DateTime := mkDateTime 2 4 19 "Monday".
Definition feb6_7pm : DateTime := mkDateTime 2 6 19 "Wednesday".

(** An event that also carries clock boundaries, and the configuration they
    would make. *)
Definition event_E : gmap string string :=
  <["dayStartHour" := "2"]>
    (<["weekStartDay" := "Monday"]>
       (<["monthStartDay" := "1"]>
          (<["yearStartMonth" := "1"]> (make_event text_h2_d1 "vol-1")))).

Definition config_E : BackupConfig := mkBackupConfig 2 "Monday" 1 1.

Definition cloud_E : Cloud :=
  mkCloud [("vol-1", snapshots_A)] [] [] [] jan1_2am.

(** The instance [__init__] builds from [event_E] and [cloud_E]. *)
Definition self_E : Self :=
  mkSelf 19 "Monday" 1 1 "bei" "beical" "beical-mongod" "mongod" text_h2_d1
         ["vol-1"] [("vol-1", snapshots_A)].

(** Scenario D: two volumes, the creation fails for the first one. *)
Definition snapshots_D2 : list Snapshot :=
  [ tagged "snap-8" 380 "h"; tagged "snap-9" 400 "h"; tagged "snap-7" 90 "d" ].

Definition cloud_D : Cloud :=
  mkCloud [("vol-1", snapshots_A); ("vol-2", snapshots_D2)]
          [] ["vol-1"] ["snap-w2"] feb6_7pm.

Definition self_D : Self :=
  mkSelf 19 "Monday" 1 1 "bei" "beical" "beical-mongod" "mongod" text_h2_d1
         ["vol-1"; "vol-2"] [("vol-1", snapshots_A); ("vol-2", snapshots_D2)].

(** The listing fails for the first of two volumes. *)
Definition event_F : gmap string string := make_event text_h2_d1 "vol-1,vol-2".

Definition cloud_F : Cloud :=
  mkCloud [("vol-1", snapshots_A); ("vol-2", snapshots_D2)]
          ["vol-1"] [] [] feb6_7pm.



(** The boundaries [__init__] assigns. *)
Definition init_boundaries : BackupConfig := mkBackupConfig 19 "Monday" 1 1.

(** Whether [now] meets the boundary condition under which [label] is
    given; [h] asks for nothing. *)
Definition qualifies (self : Self) (now_ : DateTime) (label : string) : bool :=
  if String.eqb label "y" then yearly_boundary self now_
  else if String.eqb label "m" then monthly_boundary self now_
  else if String.eqb label "w" then weekly_boundary self now_
  else if String.eqb label "d" then daily_boundary self now_
  else true.

(** The labels from the most to the least specific. *)
Definition priority : list string := ["y"; "m"; "w"; "d"; "h"].
(** ** Vocabulary of further properties *)

(** [",".join(pieces)], which undoes [split_commas]. *)
Fixpoint join_commas (pieces : list string) : string :=
  match pieces with
  | [] => EmptyString
  | piece :: rest =>
      match rest with
      | [] => piece
      | _ :: _ => (piece ++ String ","%char (join_commas rest))%string
      end
  end.

Definition has_comma (s : string) : bool :=
  existsb (Ascii.eqb ","%char) (list_ascii_of_string s).

(** The snapshots of a list that were started at time [t]. *)
Definition started_at (t : Z) (l : list Snapshot) : list Snapshot :=
  List.filter (fun x => StartTime x =? t) l.

(** The keys [__init__] reads from the event, in reading order. *)
Definition required_keys : list string :=
  ["ProductDomain"; "Service"; "Cluster"; "Application"; "RetentionPolicy";
   "VolumeIDs"].


(** Examples: an event without its volumes, an instance whose policy text
    is not JSON, an instance with a pending snapshot, a volume named
    twice. *)
Definition event_no_volumes : gmap string string :=
  delete "VolumeIDs" (make_event text_h2_d1 "vol-1").

Definition self_bad_policy : Self :=
  mkSelf 19 "Monday" 1 1 "bei" "beical" "beical-mongod" "mongod" "keep 2"
         ["vol-1"; "vol-2"] [("vol-1", snapshots_A); ("vol-2", snapshots_D2)].

Definition snapshots_P : list Snapshot :=
  [ tagged "snap-2" 200 "h"; tagged "snap-3" 300 "h"; tagged "snap-1" 100 "h";
    mkSnapshot "snap-4" "pending" 400
      (Some [mkTag "Name" "cluster-a"; mkTag "BackupTag" "h"]) ].

Definition self_P : Self :=
  mkSelf 19 "Monday" 1 1 "bei" "beical" "beical-mongod" "mongod" text_h2_d1
         ["vol-1"] [("vol-1", snapshots_P)].

Definition cloud_P : Cloud :=
  mkCloud [("vol-1", snapshots_P)] [] [] [] feb6_7pm.

Definition self_twice : Self :=
  mkSelf 19 "Monday" 1 1 "bei" "beical" "beical-mongod" "mongod" text_h2_d1
         ["vol-1"; "vol-2"; "vol-1"] [].

(** How many tags of [x] are a ["BackupTag"] with value [tag]. *)
Definition backup_tag_count (tag : string) (x : Snapshot) : nat :=
  length (List.filter (is_backup_tag tag) (tags_of x)).

(** * Properties *)

(** ** Sorting and slicing *)

Lemma insert_newest_first_perm x l :
  Permutation (insert_newest_first x l) (x :: l).
Proof.
  induction l as [|y l IH]; simpl; [reflexivity|].
  destruct (StartTime x <? StartTime y); [|reflexivity].
  rewrite IH. apply perm_swap.
Qed.

Lemma sorted_newest_first_perm l : Permutation (sorted_newest_first l) l.
Proof.
  induction l as [|x l IH]; simpl; [reflexivity|].
  rewrite insert_newest_first_perm. now constructor.
Qed.

Lemma sorted_newest_first_length l :
  length (sorted_newest_first l) = length l.
Proof. apply Permutation_length, sorted_newest_first_perm. Qed.

Lemma insert_newest_first_sorted x l :
  StronglySorted newer_or_equal l ->
  StronglySorted newer_or_equal (insert_newest_first x l).
Proof.
  induction 1 as [|y l Hs IH Hy]; simpl.
  - repeat constructor.
  - destruct (Z.ltb_spec (StartTime x) (StartTime y)) as [Hlt|Hge].
    + constructor; [exact IH|].
      eapply Permutation_Forall; [symmetry; apply insert_newest_first_perm|].
      constructor; [unfold newer_or_equal; lia | exact Hy].
    + constructor; [now constructor|].
      constructor; [exact Hge|].
      eapply Forall_impl; [exact Hy|].
      unfold newer_or_equal. intros z Hz. lia.
Qed.

Lemma sorted_newest_first_sorted l :
  StronglySorted newer_or_equal (sorted_newest_first l).
Proof.
  induction l as [|x l IH]; simpl; [constructor|].
  now apply insert_newest_first_sorted.
Qed.

Lemma sorted_app_newer (l1 l2 : list Snapshot) :
  StronglySorted newer_or_equal (l1 ++ l2) ->
  forall k d, In k l1 -> In d l2 -> StartTime d <= StartTime k.
Proof.
  induction l1 as [|x l1 IH]; simpl; intros Hs k d Hk Hd; [contradiction|].
  apply StronglySorted_inv in Hs as [Hs Hx].
  destruct Hk as [->|Hk]; [|now apply IH].
  rewrite List.Forall_forall in Hx. apply Hx, in_or_app. now right.
Qed.

Lemma slice_from_0 {A} (l : list A) : slice_from l 0 = l.
Proof. unfold slice_from. simpl. now rewrite Z.min_l by lia. Qed.

Lemma slice_from_last {A} (l : list A) (n : Z) :
  0 < n ->
  slice_from l (- n) = drop (Z.to_nat (Z.of_nat (length l) - n)) l.
Proof.
  intros Hn. unfold slice_from.
  destruct (Z.ltb_spec (- n) 0) as [_|H]; [|lia].
  f_equal. lia.
Qed.

(** The slice keeps the last [n] elements; [n = 0] and an [n] beyond the
    length both keep everything. Snapshots started at the same time stay in
    listing order, so the later listed one counts as the older. *)
Example slice_from_examples :
  slice_from [1; 2; 3] (- 1) = [3]
  /\ slice_from [1; 2; 3] (- 0) = [1; 2; 3]
  /\ slice_from [1; 2; 3] (- 5) = [1; 2; 3]
  /\ get_oldest_snapshot_ids
       [tagged "a" 100 "h"; tagged "b" 100 "h"; tagged "c" 200 "h"] 1 = ["b"].
Proof. repeat split. Qed.

(** ** What one tier contributes to the selection *)

(** With a non-negative keep-count the selection of a tier is everything
    but the [keep] newest snapshots of its group. *)
Lemma select_snapshot_ids_present policy snaps tag keep :
  policy !! tag = Some keep ->
  0 <= keep ->
  select_snapshot_ids policy snaps tag =
    map SnapshotId
      (drop (Z.to_nat keep)
            (sorted_newest_first (get_snapshots_by_backup_tag snaps tag))).
Proof.
  intros Hp Hk. unfold select_snapshot_ids. rewrite Hp.
  set (g := get_snapshots_by_backup_tag snaps tag).
  destruct (Z.ltb_spec 0 (Z.of_nat (length g) - keep)) as [Hd|Hd].
  - unfold get_oldest_snapshot_ids. rewrite slice_from_last by exact Hd.
    rewrite length_map, sorted_newest_first_length, skipn_map.
    do 2 f_equal. lia.
  - rewrite drop_ge; [reflexivity|].
    rewrite sorted_newest_first_length. lia.
Qed.

(** A negative keep-count, like a missing one, selects the whole group. *)
Lemma select_snapshot_ids_negative policy snaps tag keep :
  policy !! tag = Some keep ->
  keep < 0 ->
  select_snapshot_ids policy snaps tag =
    map SnapshotId
      (sorted_newest_first (get_snapshots_by_backup_tag snaps tag)).
Proof.
  intros Hp Hk. unfold select_snapshot_ids. rewrite Hp.
  set (g := get_snapshots_by_backup_tag snaps tag).
  destruct (Z.ltb_spec 0 (Z.of_nat (length g) - keep)) as [Hd|Hd]; [|lia].
  unfold get_oldest_snapshot_ids. rewrite slice_from_last by exact Hd.
  rewrite length_map, sorted_newest_first_length.
  replace (Z.to_nat _) with 0%nat by lia. reflexivity.
Qed.

Lemma select_snapshot_ids_absent policy snaps tag :
  policy !! tag = None ->
  select_snapshot_ids policy snaps tag =
    map SnapshotId
      (sorted_newest_first (get_snapshots_by_backup_tag snaps tag)).
Proof.
  intros Hp. unfold select_snapshot_ids. rewrite Hp.
  set (g := get_snapshots_by_backup_tag snaps tag).
  destruct (Z.ltb_spec 0 (Z.of_nat (length g))) as [Hd|Hd].
  - unfold get_oldest_snapshot_ids. simpl. apply slice_from_0.
  - destruct g; [reflexivity | simpl in Hd; lia].
Qed.

(** Whatever the policy, a tier only selects identifiers of its own group. *)
Lemma select_snapshot_ids_in_group policy snaps tag i :
  In i (select_snapshot_ids policy snaps tag) ->
  exists x, In x (get_snapshots_by_backup_tag snaps tag) /\ SnapshotId x = i.
Proof.
  intros Hi.
  assert (In i (map SnapshotId
            (sorted_newest_first (get_snapshots_by_backup_tag snaps tag)))) as H.
  { destruct (policy !! tag) as [keep|] eqn:Hp.
    - destruct (Z.lt_ge_cases keep 0) as [Hk|Hk].
      + now rewrite <- (select_snapshot_ids_negative _ _ _ _ Hp Hk).
      + rewrite (select_snapshot_ids_present _ _ _ _ Hp Hk) in Hi.
        apply in_map_iff in Hi as (x & <- & Hx). apply in_map.
        apply list_elem_of_In. apply list_elem_of_In in Hx.
        eapply subseteq_drop, Hx.
    - now rewrite <- (select_snapshot_ids_absent _ _ _ Hp). }
  apply in_map_iff in H as (x & <- & Hx). exists x. split; [|reflexivity].
  eapply Permutation_in; [apply sorted_newest_first_perm | exact Hx].
Qed.

(** ** Tier groups *)

Lemma is_backup_tag_true tag y :
  is_backup_tag tag y = true <-> y = mkTag "BackupTag" tag.
Proof.
  unfold is_backup_tag. destruct y as [k v]; simpl.
  rewrite andb_true_iff, !String.eqb_eq.
  split; [intros [-> ->]; reflexivity | intros [= -> ->]; now split].
Qed.

Lemma has_BackupTag_key_true x :
  has_BackupTag_key x = true <-> exists v, carries x "BackupTag" v.
Proof.
  unfold has_BackupTag_key, carries. rewrite existsb_exists. split.
  - intros (k & Hk & Heq). apply String.eqb_eq in Heq. subst k.
    apply in_map_iff in Hk as ([k v] & Hkey & Hin). simpl in Hkey. subst k.
    now exists v.
  - intros (v & Hin). exists "BackupTag". split; [|apply String.eqb_refl].
    apply in_map_iff. now exists (mkTag "BackupTag" v).
Qed.

(** A snapshot is in the group of [tag] exactly when it is listed and one of
    its tags is [BackupTag = tag]. *)
Lemma in_get_snapshots_by_backup_tag snaps tag x :
  In x (get_snapshots_by_backup_tag snaps tag) <->
  In x snaps /\ carries x "BackupTag" tag.
Proof.
  unfold get_snapshots_by_backup_tag, carries.
  rewrite in_flat_map. split.
  - intros (x' & Hx' & Hin).
    apply filter_In in Hx' as [Hx' _]. apply filter_In in Hx' as [Hx' _].
    apply in_flat_map in Hin as (y & Hy & Hin).
    destruct (is_backup_tag tag y) eqn:Hb; [|contradiction].
    destruct Hin as [->|[]]. apply is_backup_tag_true in Hb. subst y.
    now split.
  - intros [Hx Hc]. exists x. split.
    + apply filter_In. split.
      * apply filter_In. split; [exact Hx|].
        unfold has_Tags. unfold tags_of in Hc.
        destruct (Tags x); [reflexivity | contradiction].
      * apply has_BackupTag_key_true. now exists tag.
    + apply in_flat_map. exists (mkTag "BackupTag" tag). split; [exact Hc|].
      replace (is_backup_tag tag (mkTag "BackupTag" tag)) with true.
      * now left.
      * symmetry. now apply is_backup_tag_true.
Qed.

Lemma flat_map_segment {A B} (f : A -> list B) (l : list A) (a : A) :
  In a l -> exists before after, flat_map f l = before ++ f a ++ after.
Proof.
  intros Ha. apply in_split in Ha as (l1 & l2 & ->).
  exists (flat_map f l1), (flat_map f l2).
  now rewrite flat_map_app.
Qed.

Lemma filter_all {A} (p : A -> bool) (l : list A) :
  (forall x, In x l -> p x = true) -> List.filter p l = l.
Proof.
  induction l as [|x l IH]; simpl; intros H; [reflexivity|].
  rewrite (H x) by now left. f_equal. apply IH. intros y Hy. apply H. now right.
Qed.

Lemma filter_none {A} (p : A -> bool) (l : list A) :
  (forall x, In x l -> p x = false) -> List.filter p l = [].
Proof.
  induction l as [|x l IH]; simpl; intros H; [reflexivity|].
  rewrite (H x) by now left. apply IH. intros y Hy. apply H. now right.
Qed.

Lemma filter_flat_map_one {A B} (p : B -> bool) (f : A -> list B)
    (l : list A) (a : A) :
  List.NoDup l -> In a l ->
  (forall y, In y (f a) -> p y = true) ->
  (forall a' y, In a' l -> a' <> a -> In y (f a') -> p y = false) ->
  List.filter p (flat_map f l) = f a.
Proof.
  induction l as [|b l IH]; intros Hnd Ha Hin Hout; [contradiction|].
  apply List.NoDup_cons_iff in Hnd as [Hb Hnd].
  simpl. rewrite List.filter_app. destruct Ha as [->|Ha].
  - rewrite filter_all by exact Hin.
    rewrite filter_none; [apply app_nil_r|].
    intros y Hy. apply in_flat_map in Hy as (a' & Ha' & Hy).
    apply (Hout a' y); [now right | | exact Hy].
    intros ->. contradiction.
  - rewrite filter_none.
    + apply IH; try assumption. intros a' y Ha'. apply Hout. now right.
    + intros y Hy. apply (Hout b y); [now left | | exact Hy].
      intros ->. contradiction.
Qed.

Lemma backup_tags_NoDup : List.NoDup backup_tags.
Proof.
  unfold backup_tags.
  repeat (constructor; [simpl; intuition discriminate|]).
  constructor.
Qed.

(** Every selected identifier is that of a listed snapshot carrying a
    [BackupTag] whose value is one of the five labels. *)
Lemma selection_needs_tier_label policy snaps i :
  In i (deletion_selection policy snaps) ->
  exists x tag, In x snaps /\ SnapshotId x = i /\ In tag backup_tags
                /\ carries x "BackupTag" tag.
Proof.
  unfold deletion_selection. rewrite in_flat_map.
  intros (tag & Htag & Hi).
  apply select_snapshot_ids_in_group in Hi as (x & Hx & Hid).
  apply in_get_snapshots_by_backup_tag in Hx as [Hx Hc].
  now exists x, tag.
Qed.

(** ** Retention *)

(** C1. For a tier [t] that the policy maps to [keep] (a keep-count, hence
    not negative), the selection of the tier has [max 0 (len group - keep)]
    identifiers; they are those of the oldest snapshots of the group: the
    group splits into kept and removed snapshots, no removed one being newer
    than a kept one; nothing is selected when [keep >= len group]; and this
    selection is the part of the whole deletion selection that falls in the
    group of [t]. *)
Theorem tier_selection_is_oldest_excess policy snaps t keep :
  In t backup_tags ->
  policy !! t = Some keep ->
  0 <= keep ->
  let group := get_snapshots_by_backup_tag snaps t in
  let selected := select_snapshot_ids policy snaps t in
  Z.of_nat (length selected) = Z.max 0 (Z.of_nat (length group) - keep)
  /\ (exists kept removed,
        Permutation group (kept ++ removed)
        /\ selected = map SnapshotId removed
        /\ forall k d, In k kept -> In d removed -> StartTime d <= StartTime k)
  /\ (Z.of_nat (length group) <= keep -> selected = [])
  /\ (exists before after,
        deletion_selection policy snaps = before ++ selected ++ after)
  /\ (one_tier_per_id snaps ->
        restrict_to_group snaps t (deletion_selection policy snaps) = selected).
Proof.
  intros Ht Hp Hk group selected.
  assert (selected = map SnapshotId
            (drop (Z.to_nat keep) (sorted_newest_first group))) as Hsel
    by now apply select_snapshot_ids_present.
  split; [|split; [|split; [|split]]].
  - rewrite Hsel, length_map, length_drop, sorted_newest_first_length. lia.
  - exists (take (Z.to_nat keep) (sorted_newest_first group)),
           (drop (Z.to_nat keep) (sorted_newest_first group)).
    rewrite take_drop. split; [|split].
    + symmetry. apply sorted_newest_first_perm.
    + exact Hsel.
    + apply sorted_app_newer. rewrite take_drop.
      apply sorted_newest_first_sorted.
  - intros Hle. rewrite Hsel, drop_ge; [reflexivity|].
    rewrite sorted_newest_first_length. lia.
  - apply (flat_map_segment (select_snapshot_ids policy snaps)), Ht.
  - intros Hone. unfold restrict_to_group, deletion_selection.
    apply filter_flat_map_one; [apply backup_tags_NoDup | exact Ht | |].
    + intros i Hi. apply select_snapshot_ids_in_group in Hi as (x & Hx & <-).
      apply existsb_exists. exists (SnapshotId x).
      split; [now apply in_map | apply String.eqb_refl].
    + intros t' i Ht' Hne Hi.
      apply select_snapshot_ids_in_group in Hi as (x' & Hx' & <-).
      apply not_true_is_false. intros Hex.
      apply existsb_exists in Hex as (j & Hj & Heq).
      apply String.eqb_eq in Heq. subst j.
      apply in_map_iff in Hj as (x & Hid & Hx).
      apply Hne. now apply (Hone t' t x' x).
Qed.

Lemma tier_selection_is_oldest_excess_witness :
  In "h" backup_tags /\ policy_A !! "h" = Some 2 /\ 0 <= 2 /\
  select_snapshot_ids policy_A snapshots_A "h" = ["snap-1"] /\
  Z.of_nat (length (select_snapshot_ids policy_A snapshots_A "h"))
  = Z.max 0 (Z.of_nat (length (get_snapshots_by_backup_tag snapshots_A "h")) - 2).
Proof.
  assert (In "h" backup_tags) as H1 by (simpl; auto).
  assert (policy_A !! "h" = Some 2) as H2 by (vm_compute; reflexivity).
  assert (0 <= 2) as H3 by lia.
  split; [exact H1 | split; [exact H2 | split; [exact H3 | split]]].
  - vm_compute; reflexivity.
  - exact (proj1 (tier_selection_is_oldest_excess policy_A snapshots_A "h" 2
                    H1 H2 H3)).
Defined.

(** C3. For a tier [t] that the policy does not mention, every snapshot of
    the group of [t] is selected for deletion: the selection of the tier is
    the whole group, as it is under the same policy extended with
    [t := 0]. *)
Theorem absent_tier_selects_whole_group policy snaps t :
  In t backup_tags ->
  policy !! t = None ->
  (forall x, In x (get_snapshots_by_backup_tag snaps t) ->
             In (SnapshotId x) (select_snapshot_ids policy snaps t)
             /\ In (SnapshotId x) (deletion_selection policy snaps))
  /\ length (select_snapshot_ids policy snaps t)
     = length (get_snapshots_by_backup_tag snaps t)
  /\ select_snapshot_ids policy snaps t
     = select_snapshot_ids (<[t := 0]> policy) snaps t.
Proof.
  intros Ht Hp.
  pose proof (select_snapshot_ids_absent policy snaps t Hp) as Hsel.
  split; [|split].
  - intros x Hx.
    assert (In (SnapshotId x) (select_snapshot_ids policy snaps t)) as Hin.
    { rewrite Hsel. apply in_map.
      eapply Permutation_in; [symmetry; apply sorted_newest_first_perm|exact Hx]. }
    split; [exact Hin|].
    unfold deletion_selection. apply in_flat_map. now exists t.
  - now rewrite Hsel, length_map, sorted_newest_first_length.
  - rewrite Hsel.
    rewrite (select_snapshot_ids_present (<[t := 0]> policy) snaps t 0);
      [reflexivity | apply lookup_insert_eq | lia].
Qed.

Lemma absent_tier_selects_whole_group_witness :
  In "w" backup_tags /\ policy_A !! "w" = None /\
  select_snapshot_ids policy_A snapshots_A "w" = ["snap-w1"; "snap-w2"] /\
  length (select_snapshot_ids policy_A snapshots_A "w")
  = length (get_snapshots_by_backup_tag snapshots_A "w").
Proof.
  assert (In "w" backup_tags) as H1 by (simpl; auto).
  assert (policy_A !! "w" = None) as H2 by (vm_compute; reflexivity).
  split; [exact H1 | split; [exact H2 | split]].
  - vm_compute; reflexivity.
  - exact (proj1 (proj2 (absent_tier_selects_whole_group policy_A snapshots_A
                           "w" H1 H2))).
Defined.

Lemma lacks_BackupTag_carries x v : lacks_BackupTag x -> ~ carries x "BackupTag" v.
Proof.
  unfold carries, tags_of. intros [Hn|(ts & Hs & Hkeys)] Hc.
  - now rewrite Hn in Hc.
  - rewrite Hs in Hc. now apply (Hkeys _ Hc).
Qed.

Lemma no_tier_label_carries x tag :
  no_tier_label x -> In tag backup_tags -> ~ carries x "BackupTag" tag.
Proof. intros Hx Htag Hc. now apply (Hx _ Hc). Qed.

(** C6. A snapshot without tags, or without a tag of key ["BackupTag"], is in
    the group of no tier, and its identifier is not in the deletion selection
    (provided no snapshot of the list that does carry the tag bears the
    same identifier), whatever the policy. *)
Theorem untagged_snapshot_never_selected policy snaps x :
  lacks_BackupTag x ->
  (forall tag, ~ In x (get_snapshots_by_backup_tag snaps tag))
  /\ ((forall x', In x' snaps -> SnapshotId x' = SnapshotId x ->
                  lacks_BackupTag x') ->
      ~ In (SnapshotId x) (deletion_selection policy snaps)).
Proof.
  intros Hx. split.
  - intros tag Hin. apply in_get_snapshots_by_backup_tag in Hin as [_ Hc].
    now apply (lacks_BackupTag_carries x tag).
  - intros Hsame Hin.
    apply selection_needs_tier_label in Hin as (x' & tag & Hx' & Hid & _ & Hc).
    apply (lacks_BackupTag_carries x' tag); [now apply Hsame | exact Hc].
Qed.

Lemma untagged_snapshot_never_selected_witness :
  lacks_BackupTag (mkSnapshot "snap-bare" "completed" 10 None) /\
  forall tag,
    ~ In (mkSnapshot "snap-bare" "completed" 10 None)
         (get_snapshots_by_backup_tag snapshots_A tag).
Proof.
  assert (lacks_BackupTag (mkSnapshot "snap-bare" "completed" 10 None)) as H
    by (left; reflexivity).
  split; [exact H|].
  exact (proj1 (untagged_snapshot_never_selected policy_A snapshots_A _ H)).
Defined.

(** C10. A snapshot whose ["BackupTag"] value is none of [h], [d], [w], [m],
    [y] is in the group of none of the five tiers, and its identifier is not
    in the deletion selection (provided no snapshot of the list with a tier
    label bears the same identifier), whatever the policy. *)
Theorem foreign_label_never_selected policy snaps x :
  no_tier_label x ->
  (forall tag, In tag backup_tags ->
               ~ In x (get_snapshots_by_backup_tag snaps tag))
  /\ ((forall x', In x' snaps -> SnapshotId x' = SnapshotId x ->
                  no_tier_label x') ->
      ~ In (SnapshotId x) (deletion_selection policy snaps)).
Proof.
  intros Hx. split.
  - intros tag Htag Hin.
    apply in_get_snapshots_by_backup_tag in Hin as [_ Hc].
    now apply (no_tier_label_carries x tag).
  - intros Hsame Hin.
    apply selection_needs_tier_label in Hin as (x' & tag & Hx' & Hid & Htag & Hc).
    apply (no_tier_label_carries x' tag); [now apply Hsame | exact Htag | exact Hc].
Qed.

Lemma foreign_label_never_selected_witness :
  no_tier_label (tagged "snap-manual" 30 "manual") /\
  forall tag, In tag backup_tags ->
    ~ In (tagged "snap-manual" 30 "manual")
         (get_snapshots_by_backup_tag snapshots_A tag).
Proof.
  assert (no_tier_label (tagged "snap-manual" 30 "manual")) as H.
  { intros y Hy Hkey. simpl in Hy. destruct Hy as [<-|[<-|[]]].
    - discriminate Hkey.
    - simpl. intuition discriminate. }
  split; [exact H|].
  exact (proj1 (foreign_label_never_selected policy_A snapshots_A _ H)).
Defined.

(** ** Classification *)

(** C2. The label [__get_backup_tag] returns is the one the first-match rule
    of the specification gives for the boundaries of [self]; it is one of the
    five labels, and each label is returned exactly under its own
    condition. *)
Theorem backup_tag_first_match self now_ :
  backup_tag_at self now_ = classify now_ (config_of self)
  /\ In (backup_tag_at self now_) backup_tags
  /\ (backup_tag_at self now_ = "y" <-> yearly_boundary self now_ = true)
  /\ (backup_tag_at self now_ = "m" <->
        yearly_boundary self now_ = false /\ monthly_boundary self now_ = true)
  /\ (backup_tag_at self now_ = "w" <->
        monthly_boundary self now_ = false /\ weekly_boundary self now_ = true)
  /\ (backup_tag_at self now_ = "d" <->
        monthly_boundary self now_ = false /\ weekly_boundary self now_ = false
        /\ daily_boundary self now_ = true)
  /\ (backup_tag_at self now_ = "h" <-> daily_boundary self now_ = false).
Proof.
  split; [reflexivity|].
  unfold backup_tag_at, yearly_boundary, monthly_boundary, weekly_boundary,
    daily_boundary, backup_tags.
  destruct (dt_hour now_ =? start_of_day self);
    destruct (dt_day now_ =? start_of_month self);
    destruct (dt_month now_ =? start_of_year self);
    destruct (String.eqb (dt_dayname now_) (start_of_week self));
    simpl; intuition (try discriminate; auto).
Qed.

(** ** Running the program *)

Section Runs.
Context {R : Runtime}.

Lemma bind_Return {A B} (m : M A) (k : A -> M B) s b s' :
  bind m k s = (Return b, s') ->
  exists a s1, m s = (Return a, s1) /\ k a s1 = (Return b, s').
Proof.
  unfold bind. destruct (m s) as [[a|code|e] s1]; intros H;
    [now exists a, s1 | discriminate | discriminate].
Qed.

Lemma event_get_Return event key s v s' :
  event_get event key s = (Return v, s') -> event !! key = Some v /\ s' = s.
Proof.
  unfold event_get. destruct (event !! key); [|discriminate].
  unfold ret. now intros [= -> ->].
Qed.

(** Whatever the event holds, the instance [__init__] builds has the
    boundaries 19, Monday, 1 and 1. *)
Lemma init_config event s self s' :
  init event s = (Return self, s') -> config_of self = init_boundaries.
Proof.
  unfold init. intros H.
  repeat (apply bind_Return in H as (? & ? & _ & H)).
  unfold ret in H. now injection H as <- _.
Qed.
End Runs.

(** C7, as the program has it. The clock boundaries are the constants that
    [__init__] assigns (19, Monday, 1, 1) whatever the event holds, so that
    the classifier of every instance is that of these boundaries; it gives
    [y] at hour 19 of 1 January and [h] at hour 2 of 1 January. *)
Theorem boundaries_are_constants {R : Runtime} event s self s' :
  init event s = (Return self, s') ->
  start_of_day self = 19 /\ start_of_week self = "Monday"
  /\ start_of_month self = 1 /\ start_of_year self = 1
  /\ (forall now_, backup_tag_at self now_ = classify now_ init_boundaries)
  /\ backup_tag_at self jan1_7pm = "y"
  /\ backup_tag_at self jan1_2am = "h".
Proof.
  intros H. apply init_config in H.
  assert (forall now_, backup_tag_at self now_ = classify now_ init_boundaries)
    as Hc by (intros now_; rewrite <- H; reflexivity).
  unfold config_of, init_boundaries in H. injection H as -> -> -> ->.
  repeat split; try exact Hc; rewrite Hc; reflexivity.
Qed.

Lemma boundaries_are_constants_witness :
  exists self s',
    init (R:=scripted) event_E (start (R:=scripted) cloud_E) = (Return self, s')
    /\ start_of_day self = 19 /\ backup_tag_at self jan1_2am = "h".
Proof.
  destruct (init (R:=scripted) event_E (start (R:=scripted) cloud_E)) as [[self| |] s'] eqn:H;
    [|vm_compute in H; discriminate H ..].
  exists self, s'. split; [reflexivity|].
  pose proof (boundaries_are_constants (R:=scripted) event_E _ self s' H) as T.
  split; [exact (proj1 T) | exact (proj2 (proj2 (proj2 (proj2 (proj2 (proj2 T))))))].
Defined.

(** C7 fails as stated: an event that supplies the boundaries of scenario E
    (day start 2, month start 1, year start 1) is accepted, and the
    classifier of the resulting instance, asked at hour 2 of 1 January,
    answers [h] where the supplied configuration asks for [y]. *)
Lemma boundaries_from_configuration_counterexample :
  event_E !! "dayStartHour" = Some "2"
  /\ classify jan1_2am config_E = "y"
  /\ exists self s1 s2,
       init (R:=scripted) event_E (start (R:=scripted) cloud_E) = (Return self, s1)
       /\ get_backup_tag (R:=scripted) self s1 = (Return "h", s2).
Proof.
  split; [vm_compute; reflexivity|].
  split; [reflexivity|].
  vm_compute. eauto.
Qed.

(** C9, as the program has it. The yearly condition implies the monthly
    one, the monthly and the weekly ones each imply the daily one, and
    none of these inclusions is an equality under the boundaries of
    [__init__]; the monthly condition does not imply the weekly one; the
    classifier returns the first label, from [y] down to [h], whose condition
    holds. *)
Theorem boundaries_nest_except_weekly self now_ :
  implb (yearly_boundary self now_) (monthly_boundary self now_) = true
  /\ implb (monthly_boundary self now_) (daily_boundary self now_) = true
  /\ implb (weekly_boundary self now_) (daily_boundary self now_) = true
  /\ List.find (qualifies self now_) priority = Some (backup_tag_at self now_)
  /\ (config_of self = init_boundaries ->
      (monthly_boundary self feb1_7pm = true
       /\ yearly_boundary self feb1_7pm = false)
      /\ (daily_boundary self feb6_7pm = true
          /\ monthly_boundary self feb6_7pm = false
          /\ weekly_boundary self feb6_7pm = false)
      /\ (monthly_boundary self feb1_7pm = true
          /\ weekly_boundary self feb1_7pm = false)
      /\ (weekly_boundary self feb4_7pm = true
          /\ monthly_boundary self feb4_7pm = false)).
Proof.
  split; [|split; [|split; [|split]]].
  1-4: unfold priority, qualifies, backup_tag_at, yearly_boundary,
         monthly_boundary, weekly_boundary, daily_boundary; simpl;
       destruct (dt_hour now_ =? start_of_day self);
       destruct (dt_day now_ =? start_of_month self);
       destruct (dt_month now_ =? start_of_year self);
       destruct (String.eqb (dt_dayname now_) (start_of_week self));
       reflexivity.
  intros H. unfold config_of, init_boundaries in H.
  unfold yearly_boundary, monthly_boundary, weekly_boundary, daily_boundary.
  injection H as -> -> -> ->. repeat split.
Qed.

(** C9 fails as stated: at hour 19 of Tuesday 1 January the yearly and the
    monthly conditions of the program hold, and the weekly one does not. *)
Lemma yearly_implies_weekly_counterexample :
  yearly_boundary self_E jan1_7pm = true
  /\ monthly_boundary self_E jan1_7pm = true
  /\ weekly_boundary self_E jan1_7pm = false
  /\ backup_tag_at self_E jan1_7pm = "y".
Proof. repeat split. Qed.

(** ** Requests and status of a run *)

Section Execution.
Context {R : Runtime}.

Lemma dict_get_set_eq {V} k (v : V) d : dict_get k (dict_set k v d) = Some v.
Proof.
  induction d as [|[k' v'] d IH]; simpl.
  - now rewrite String.eqb_refl.
  - destruct (String.eqb k' k) eqn:E; simpl; rewrite E; [reflexivity|exact IH].
Qed.

Lemma dict_get_set_ne {V} k k' (v : V) d :
  k <> k' -> dict_get k' (dict_set k v d) = dict_get k' d.
Proof.
  intros Hne. induction d as [|[k0 v0] d IH]; simpl.
  - destruct (String.eqb_spec k k'); [contradiction|reflexivity].
  - destruct (String.eqb_spec k0 k) as [->|Hk]; simpl.
    + destruct (String.eqb_spec k k'); [contradiction|reflexivity].
    + destruct (String.eqb_spec k0 k'); [reflexivity|exact IH].
Qed.

Lemma dict_get_set_is_Some {V} k k' (v : V) d :
  is_Some (dict_get k' d) -> is_Some (dict_get k' (dict_set k v d)).
Proof.
  intros H. destruct (String.eqb_spec k k') as [->|Hne].
  - rewrite dict_get_set_eq. eauto.
  - now rewrite dict_get_set_ne.
Qed.

Lemma dict_get_In {V} k (v : V) d : In (k, v) d -> is_Some (dict_get k d).
Proof.
  induction d as [|[k' v'] d IH]; simpl; [contradiction|].
  intros [[= -> ->]|H].
  - rewrite String.eqb_refl. eauto.
  - destruct (String.eqb k' k); [eauto | now apply IH].
Qed.

Lemma for_each_cons_Return {A S} (x : A) l (body : A -> S -> M S)
    acc acc' s s1 :
  body x acc s = (Return acc', s1) ->
  for_each (x :: l) body acc s = for_each l body acc' s1.
Proof. intros H. simpl. unfold bind. now rewrite H. Qed.

(** One deletion request: recorded with its outcome, one line added to the
    report, the status kept only if the request succeeded. *)
Lemma delete_one_run self volume_id snapshot_id status ret_ s :
  exists ok entry s',
    delete_one self volume_id snapshot_id (status, ret_) s
    = (Return (status && ok, ret_ ++ [entry]), s')
    /\ calls s' = calls s ++ [mkCall (DeleteSnapshot snapshot_id) ok]
    /\ printed s' = printed s.
Proof.
  unfold delete_one, bind, remote, log, ret.
  destruct (ec2_delete_snapshot snapshot_id (world s)) as [[u|e] w]; simpl.
  - exists true. eexists. eexists. rewrite andb_true_r. now repeat split.
  - exists false. eexists. eexists. rewrite andb_false_r. now repeat split.
Qed.

Lemma delete_ids_run self volume_id ids : forall status ret_ s,
  exists new entries s',
    for_each ids (delete_one self volume_id) (status, ret_) s
    = (Return (status && forallb succeeded new, ret_ ++ entries), s')
    /\ calls s' = calls s ++ new
    /\ map operation new = map Deletion ids
    /\ length entries = length ids
    /\ printed s' = printed s.
Proof.
  induction ids as [|i ids IH]; intros status ret_ s.
  - exists [], [], s. simpl. unfold ret.
    now rewrite andb_true_r, !app_nil_r.
  - destruct (delete_one_run self volume_id i status ret_ s)
      as (ok & entry & s1 & E & Hc & Hp).
    destruct (IH (status && ok) (ret_ ++ [entry]) s1)
      as (new & entries & s' & E' & Hc' & Hop & Hlen & Hp').
    exists (mkCall (DeleteSnapshot i) ok :: new), (entry :: entries), s'.
    rewrite (for_each_cons_Return _ _ _ _ _ _ _ E), E'.
    rewrite Hc', Hc, Hp', Hp. simpl. rewrite Hop, Hlen.
    rewrite <- !app_assoc, andb_assoc.
    now repeat split.
Qed.

Lemma delete_tiers_run self volume_id policy snaps tags :
  dict_get volume_id (snapshots self) = Some snaps ->
  forall status ret_ s,
  exists new entries s',
    for_each tags (delete_tier self volume_id policy) (status, ret_) s
    = (Return (status && forallb succeeded new, ret_ ++ entries), s')
    /\ calls s' = calls s ++ new
    /\ map operation new
       = map Deletion (flat_map (select_snapshot_ids policy snaps) tags)
    /\ length entries
       = length (flat_map (select_snapshot_ids policy snaps) tags)
    /\ printed s' = printed s.
Proof.
  intros Hget. induction tags as [|tag tags IH]; intros status ret_ s.
  - exists [], [], s. simpl. unfold ret.
    now rewrite andb_true_r, !app_nil_r.
  - destruct (delete_ids_run self volume_id
                (select_snapshot_ids policy snaps tag) status ret_ s)
      as (new1 & entries1 & s1 & E1 & Hc1 & Hop1 & Hlen1 & Hp1).
    destruct (IH (status && forallb succeeded new1) (ret_ ++ entries1) s1)
      as (new2 & entries2 & s2 & E2 & Hc2 & Hop2 & Hlen2 & Hp2).
    exists (new1 ++ new2), (entries1 ++ entries2), s2.
    assert (delete_tier self volume_id policy tag (status, ret_) s
            = (Return (status && forallb succeeded new1, ret_ ++ entries1),
               s1)) as E0
      by (unfold delete_tier; now rewrite Hget).
    rewrite (for_each_cons_Return _ _ _ _ _ _ _ E0), E2.
    rewrite Hc2, Hc1, Hp2, Hp1. simpl.
    rewrite forallb_app, !map_app, !length_app, Hop1, Hop2, Hlen1, Hlen2.
    rewrite <- !app_assoc, andb_assoc.
    now repeat split.
Qed.

(** [__delete_old_snapshots] with a policy that decodes: it requests the
    deletion of the whole selection, whatever the outcomes, and its status
    is the conjunction of these outcomes. *)
Lemma delete_old_snapshots_run self volume_id policy snaps s :
  json_loads (retention_policy self) = Ok policy ->
  dict_get volume_id (snapshots self) = Some snaps ->
  exists new entries s',
    delete_old_snapshots self volume_id s
    = (Return (forallb succeeded new, entries), s')
    /\ calls s' = calls s ++ new
    /\ map operation new = map Deletion (deletion_selection policy snaps)
    /\ length entries = length (deletion_selection policy snaps)
    /\ printed s' = printed s.
Proof.
  intros Hj Hget.
  destruct (delete_tiers_run self volume_id policy snaps backup_tags Hget
              true [] s)
    as (new & entries & s' & E & Hc & Hop & Hlen & Hp).
  exists new, entries, s'.
  unfold delete_old_snapshots, loads, bind. rewrite Hj. unfold ret at 1.
  rewrite E. now repeat split.
Qed.

(** [__create_snapshot]: one creation request; the flag it returns is the
    outcome of that request. *)
Lemma create_snapshot_run self volume_id s :
  exists ok retval tags s',
    create_snapshot self volume_id s = (Return (ok, retval), s')
    /\ calls s' = calls s ++ [mkCall (CreateSnapshot volume_id tags) ok]
    /\ printed s' = printed s.
Proof.
  unfold create_snapshot, get_backup_tag, bind, now, remote, log, ret.
  destruct (datetime_now (world s)) as [t w0]. simpl.
  destruct (ec2_create_snapshot volume_id _ w0) as [[i|e] w]; simpl.
  - exists true. do 3 eexists. now repeat split.
  - exists false. do 3 eexists. now repeat split.
Qed.

Lemma reported_set policy self rep volume_id retval entries v :
  length entries
  = length (deletion_selection policy (listed_for self volume_id)) ->
  v = volume_id \/ reported policy self rep v ->
  reported policy self
    (mkReport (dict_set volume_id retval (created rep))
              (dict_set volume_id entries (deleted rep))) v.
Proof.
  intros Hlen Hv. unfold reported. simpl.
  destruct (String.eqb_spec volume_id v) as [->|Hne].
  - rewrite !dict_get_set_eq. split; [eauto|]. now exists entries.
  - destruct Hv as [->|Hv]; [contradiction|].
    now rewrite !dict_get_set_ne by exact Hne.
Qed.

(** One turn of the loop of [execute]: the creation (unless a snapshot is
    pending) and then the deletions are requested whatever the outcome of
    the creation, and the status keeps the conjunction of the outcomes. *)
Lemma process_volume_run self policy item fs rep s :
  json_loads (retention_policy self) = Ok policy ->
  is_Some (dict_get (fst item) (snapshots self)) ->
  exists new retval entries s',
    process_volume self item (fs, rep) s
    = (Return (fs && forallb succeeded new,
               mkReport (dict_set (fst item) retval (created rep))
                        (dict_set (fst item) entries (deleted rep))), s')
    /\ calls s' = calls s ++ new
    /\ map operation new = volume_operations policy self item
    /\ length entries
       = length (deletion_selection policy (listed_for self (fst item)))
    /\ printed s' = printed s.
Proof.
  destruct item as [volume_id snaps]. simpl. intros Hj [l Hget].
  assert (exists new0 ok retval s0,
    (match get_snapshots_by_state snaps "pending" with
     | [] => create_snapshot self volume_id
     | _ :: _ =>
         bind (log self WARNING volume_id
                   "Pending Snapshot Detected, Operation Aborted")
           (fun _ => ret (true, "Pending Snapshot Detected, Operation Aborted"))
     end) s = (Return (ok, retval), s0)
    /\ calls s0 = calls s ++ new0
    /\ map operation new0
       = match get_snapshots_by_state snaps "pending" with
         | [] => [Creation volume_id]
         | _ :: _ => []
         end
    /\ forallb succeeded new0 = ok
    /\ printed s0 = printed s)
    as (new0 & ok & retval & s0 & E0 & Hc0 & Hop0 & Hok & Hp0).
  { destruct (get_snapshots_by_state snaps "pending").
    - destruct (create_snapshot_run self volume_id s)
        as (ok & retval & tags & s0 & E & Hc & Hp).
      exists [mkCall (CreateSnapshot volume_id tags) ok], ok, retval, s0.
      simpl. rewrite andb_true_r. now repeat split.
    - exists [], true. do 2 eexists. unfold bind, log, ret. simpl.
      rewrite app_nil_r. now repeat split. }
  destruct (delete_old_snapshots_run self volume_id policy l s0 Hj Hget)
    as (new1 & entries & s1 & E1 & Hc1 & Hop1 & Hlen1 & Hp1).
  exists (new0 ++ new1), retval, entries, s1.
  unfold process_volume, volume_operations, listed_for. simpl.
  unfold bind at 1. rewrite E0. unfold bind. rewrite E1. unfold ret.
  rewrite Hget, Hc1, Hc0, Hp1, Hp0, forallb_app, map_app, Hop0, Hop1, Hok.
  rewrite <- app_assoc, andb_assoc.
  now repeat split.
Qed.

Lemma execute_loop_run self policy items :
  json_loads (retention_policy self) = Ok policy ->
  (forall item, In item items ->
                is_Some (dict_get (fst item) (snapshots self))) ->
  forall fs rep s,
  exists new rep' s',
    for_each items (process_volume self) (fs, rep) s
    = (Return (fs && forallb succeeded new, rep'), s')
    /\ calls s' = calls s ++ new
    /\ map operation new = flat_map (volume_operations policy self) items
    /\ (forall v, In v (map fst items) \/ reported policy self rep v ->
                  reported policy self rep' v)
    /\ printed s' = printed s.
Proof.
  intros Hj. induction items as [|item items IH]; intros Hitems fs rep s.
  - exists [], rep, s. simpl. unfold ret. rewrite andb_true_r, app_nil_r.
    do 3 (split; [reflexivity|]). split; [|reflexivity].
    intros v [[]|Hv]. exact Hv.
  - destruct (process_volume_run self policy item fs rep s Hj)
      as (new1 & retval & entries & s1 & E1 & Hc1 & Hop1 & Hlen1 & Hp1);
      [apply Hitems; now left|].
    destruct (IH (fun i Hi => Hitems i (or_intror Hi))
                (fs && forallb succeeded new1)
                (mkReport (dict_set (fst item) retval (created rep))
                          (dict_set (fst item) entries (deleted rep))) s1)
      as (new2 & rep' & s2 & E2 & Hc2 & Hop2 & Hrep2 & Hp2).
    exists (new1 ++ new2), rep', s2.
    rewrite (for_each_cons_Return _ _ _ _ _ _ _ E1), E2.
    rewrite Hc2, Hc1, Hp2, Hp1. simpl.
    rewrite forallb_app, map_app, Hop1, Hop2, <- app_assoc, andb_assoc.
    do 3 (split; [reflexivity|]). split; [|reflexivity].
    intros v [[<-|Hv]|Hv]; apply Hrep2.
    + right. apply reported_set; [exact Hlen1 | now left].
    + now left.
    + right. apply reported_set; [exact Hlen1 | now right].
Qed.

(** [execute] with a policy that decodes: it returns; it makes, for every
    volume in turn, the creation request (unless a snapshot is pending)
    and then every deletion request of the volume's selection, whatever
    the outcomes; its status is the conjunction of these outcomes; the
    report has the entries of every volume. *)
Lemma execute_run self policy s :
  json_loads (retention_policy self) = Ok policy ->
  exists new report s',
    execute self s = (Return (forallb succeeded new, report), s')
    /\ calls s' = calls s ++ new
    /\ map operation new
       = flat_map (volume_operations policy self) (snapshots self)
    /\ (forall v, In v (map fst (snapshots self)) ->
                  reported policy self report v)
    /\ printed s' = printed s.
Proof.
  intros Hj.
  destruct (execute_loop_run self policy (snapshots self) Hj) with
    (fs := true) (rep := mkReport [] []) (s := s)
    as (new & report & s' & E & Hc & Hop & Hrep & Hp).
  { intros [v l] Hin. simpl. now apply (dict_get_In v l). }
  exists new, report, s'. unfold execute. rewrite E. simpl.
  split; [reflexivity|]. do 2 (split; [assumption|]). split; [|assumption].
  intros v Hv. apply Hrep. now left.
Qed.

(** C4. Whatever the volumes and whatever the remote service answers to
    each request, [execute] returns (provided the policy text decodes); the
    requests it makes are, for each volume in turn, the creation (unless a
    snapshot is pending) followed by the deletion of every selected
    identifier, so that no failure stops the run and the deletions of a
    volume are requested whether its creation succeeded or not; the status
    it returns is the conjunction of the outcomes of all these requests;
    the report has the entries of every volume. *)
Theorem execute_status_is_conjunction self policy s :
  json_loads (retention_policy self) = Ok policy ->
  exists final_status report s' new,
    execute self s = (Return (final_status, report), s')
    /\ calls s' = calls s ++ new
    /\ map operation new
       = flat_map (volume_operations policy self) (snapshots self)
    /\ final_status = forallb succeeded new
    /\ (final_status = true <-> forall c, In c new -> succeeded c = true)
    /\ (forall v, In v (map fst (snapshots self)) ->
                  reported policy self report v).
Proof.
  intros Hj.
  destruct (execute_run self policy s Hj)
    as (new & report & s' & E & Hc & Hop & Hrep & _).
  exists (forallb succeeded new), report, s', new.
  do 3 (split; [assumption|]). split; [reflexivity|].
  split; [apply forallb_forall | assumption].
Qed.

(** One listing request: recorded with its outcome; a failure clears the
    status and the loop goes on. *)
Lemma list_volume_run self volume_id status d s :
  exists ok d' s',
    list_volume self volume_id (status, d) s = (Return (status && ok, d'), s')
    /\ calls s' = calls s ++ [mkCall (DescribeSnapshots volume_id) ok]
    /\ printed s' = printed s.
Proof.
  unfold list_volume, bind, remote, log, ret.
  destruct (ec2_describe_snapshots volume_id (world s)) as [[l|e] w]; simpl.
  - exists true. do 2 eexists. rewrite andb_true_r. now repeat split.
  - exists false. do 2 eexists. rewrite andb_false_r. now repeat split.
Qed.

Lemma list_volumes_run self vids : forall status d s,
  exists new d' s',
    for_each vids (list_volume self) (status, d) s
    = (Return (status && forallb succeeded new, d'), s')
    /\ calls s' = calls s ++ new
    /\ map operation new = map Listing vids
    /\ printed s' = printed s.
Proof.
  induction vids as [|v vids IH]; intros status d s.
  - exists [], d, s. simpl. unfold ret.
    now rewrite andb_true_r, app_nil_r.
  - destruct (list_volume_run self v status d s)
      as (ok & d1 & s1 & E & Hc & Hp).
    destruct (IH (status && ok) d1 s1) as (new & d' & s' & E' & Hc' & Hop & Hp').
    exists (mkCall (DescribeSnapshots v) ok :: new), d', s'.
    rewrite (for_each_cons_Return _ _ _ _ _ _ _ E), E'.
    rewrite Hc', Hc, Hp', Hp. simpl. rewrite Hop.
    rewrite <- app_assoc, andb_assoc.
    now repeat split.
Qed.

(** [__get_all_snapshots]: every volume is listed, in order, whether or not
    an earlier listing failed; the method returns when all listings
    succeeded and exits with status 429 as soon as one of them failed. *)
Lemma get_all_snapshots_run self s :
  exists new s',
    calls s' = calls s ++ new
    /\ map operation new = map Listing (volume_ids self)
    /\ printed s' = printed s
    /\ if forallb succeeded new
       then exists d, get_all_snapshots self s = (Return d, s')
       else get_all_snapshots self s = (Exit 429, s').
Proof.
  destruct (list_volumes_run self (volume_ids self) true [] s)
    as (new & d & s' & E & Hc & Hop & Hp).
  exists new, s'. do 3 (split; [assumption|]).
  unfold get_all_snapshots, bind.
  match goal with
  | |- context [for_each ?l ?body ?acc s] =>
      replace (for_each l body acc s)
        with (Return (true && forallb succeeded new, d), s')
        by (symmetry; exact E)
  end.
  simpl. destruct (forallb succeeded new); simpl; [now exists d | reflexivity].
Qed.

Lemma event_get_run event key v s :
  event !! key = Some v -> event_get event key s = (Return v, s).
Proof. intros H. unfold event_get. now rewrite H. Qed.






End Execution.

(** ** The program on the scripted runtime *)

Lemma execute_status_is_conjunction_witness :
  @json_loads scripted (retention_policy self_D) = Ok policy_A
  /\ exists final_status report s' new,
       execute (R:=scripted) self_D (start (R:=scripted) cloud_D)
       = (Return (final_status, report), s')
       /\ calls s' = calls (start (R:=scripted) cloud_D) ++ new
       /\ map operation new
          = flat_map (volume_operations policy_A self_D) (snapshots self_D)
       /\ final_status = forallb succeeded new
       /\ (final_status = true <-> forall c, In c new -> succeeded c = true)
       /\ (forall v, In v (map fst (snapshots self_D)) ->
                     reported policy_A self_D report v).
Proof.
  assert (@json_loads scripted (retention_policy self_D) = Ok policy_A)
    as H by reflexivity.
  split; [exact H|].
  exact (execute_status_is_conjunction (R:=scripted) self_D policy_A
           (start (R:=scripted) cloud_D) H).
Defined.

(** Scenario D: the creation fails for the first volume and succeeds for
    the second; the report says so, the status is false, and the deletions of
    the first volume were requested all the same, one of them failing
    without stopping the run. *)
Example scenario_D :
  let '(result, s') :=
    execute (R:=scripted) self_D (start (R:=scripted) cloud_D) in
  result
  = Return
      (false,
       mkReport
         [("vol-1",
           "Failed to Create Snapshot: SnapshotCreationPerVolumeRateExceeded");
          ("vol-2", "snap-new-vol-2")]
         [("vol-1",
           ["snap-1"; "snap-w1";
            "Failed to Delete Snapshot snap-w2: InvalidSnapshot.InUse"]);
          ("vol-2", [])])
  /\ map (fun c => (operation c, succeeded c)) (calls s')
     = [(Creation "vol-1", false); (Deletion "snap-1", true);
        (Deletion "snap-w1", true); (Deletion "snap-w2", false);
        (Creation "vol-2", true)].
Proof. vm_compute. split; reflexivity. Qed.



(** The log of that run: the failed listing at level ERROR, the other at
    level INFO. *)
Example listing_failure_log :
  logged (snd (lambda_handler (R:=scripted) event_F
                 (start (R:=scripted) cloud_F)))
  = [ mkLogRecord ERROR
        "bei - beical - beical-mongod  - vol-1 - RequestLimitExceeded";
      mkLogRecord INFO
        "bei - beical - beical-mongod  - vol-2 - Snapshots Acquired" ].
Proof. vm_compute. reflexivity. Qed.




(** * Further properties of the program *)

(** ** Splitting the volume list *)

Lemma split_commas_cons c s :
  split_commas (String c s)
  = if Ascii.eqb c ","%char then EmptyString :: split_commas s
    else match split_commas s with
         | piece :: pieces => String c piece :: pieces
         | [] => [String c EmptyString]
         end.
Proof. reflexivity. Qed.

Lemma split_commas_not_nil s : split_commas s <> [].
Proof.
  destruct s as [|c s]; [discriminate|]. rewrite split_commas_cons.
  destruct (Ascii.eqb c ","%char); [discriminate|].
  destruct (split_commas s); discriminate.
Qed.

Lemma join_commas_String c piece pieces :
  join_commas (String c piece :: pieces) = String c (join_commas (piece :: pieces)).
Proof. destruct pieces; reflexivity. Qed.

Lemma has_comma_String c s :
  has_comma (String c s) = Ascii.eqb ","%char c || has_comma s.
Proof. reflexivity. Qed.

(** X10. [VolumeIDs.split(",")] always yields at least one piece, no piece
    contains a comma, and joining the pieces with commas gives the text
    back; so a text without a comma, the empty one included, is one volume
    identifier. *)
Theorem split_commas_round_trip s :
  join_commas (split_commas s) = s
  /\ split_commas s <> []
  /\ (forall piece, In piece (split_commas s) -> has_comma piece = false)
  /\ (has_comma s = false -> split_commas s = [s]).
Proof.
  split; [|split; [apply split_commas_not_nil|split]].
  - induction s as [|c s IH]; [reflexivity|].
    rewrite split_commas_cons.
    destruct (Ascii.eqb_spec c ","%char) as [->|Hc].
    + pose proof (split_commas_not_nil s) as Hne.
      simpl. destruct (split_commas s) eqn:E; [contradiction|].
      simpl in IH |- *. now rewrite IH.
    + pose proof (split_commas_not_nil s) as Hne.
      destruct (split_commas s) as [|piece pieces] eqn:E; [contradiction|].
      rewrite join_commas_String. now rewrite IH.
  - induction s as [|c s IH]; intros piece Hin.
    + destruct Hin as [<-|[]]. reflexivity.
    + rewrite split_commas_cons in Hin.
      destruct (Ascii.eqb_spec c ","%char) as [->|Hc].
      * destruct Hin as [<-|Hin]; [reflexivity | now apply IH].
      * destruct (split_commas s) as [|p ps] eqn:E.
        -- destruct Hin as [<-|[]]. rewrite has_comma_String.
           replace (Ascii.eqb ","%char c) with false
             by (symmetry; apply Ascii.eqb_neq; congruence).
           reflexivity.
        -- destruct Hin as [<-|Hin]; [|apply IH; now right].
           rewrite has_comma_String.
           replace (Ascii.eqb ","%char c) with false
             by (symmetry; apply Ascii.eqb_neq; congruence).
           apply (IH p). now left.
  - induction s as [|c s IH]; intros Hs; [reflexivity|].
    rewrite split_commas_cons. rewrite has_comma_String in Hs.
    apply orb_false_iff in Hs as [Hc Hs].
    rewrite Ascii.eqb_sym, Hc. now rewrite (IH Hs).
Qed.

Lemma split_commas_round_trip_witness :
  has_comma "vol-1" = false
  /\ split_commas "vol-1" = ["vol-1"]
  /\ join_commas (split_commas "vol-1,,vol-2,") = "vol-1,,vol-2,".
Proof.
  split; [reflexivity|]. split.
  - exact (proj2 (proj2 (proj2 (split_commas_round_trip "vol-1"))) eq_refl).
  - exact (proj1 (split_commas_round_trip "vol-1,,vol-2,")).
Defined.

(** ** The sort and the slice *)

Lemma started_at_insert t x l :
  started_at t (insert_newest_first x l)
  = if StartTime x =? t then x :: started_at t l else started_at t l.
Proof.
  unfold started_at. induction l as [|y l IH]; simpl; [reflexivity|].
  destruct (Z.ltb_spec (StartTime x) (StartTime y)) as [Hlt|Hge]; simpl.
  - rewrite IH.
    destruct (Z.eqb_spec (StartTime y) t), (Z.eqb_spec (StartTime x) t);
      try reflexivity; lia.
  - reflexivity.
Qed.

(** X9. The sort of [__get_oldest_snapshot_ids] rearranges the snapshots,
    puts them newest first, and is stable: snapshots started at the same
    time keep their listing order, so that of two such snapshots the one
    listed later is sliced off first. *)
Theorem sorted_newest_first_stable l :
  Permutation (sorted_newest_first l) l
  /\ StronglySorted newer_or_equal (sorted_newest_first l)
  /\ forall t, started_at t (sorted_newest_first l) = started_at t l.
Proof.
  split; [apply sorted_newest_first_perm|].
  split; [apply sorted_newest_first_sorted|].
  intros t. induction l as [|x l IH]; [reflexivity|].
  simpl. rewrite started_at_insert, IH. reflexivity.
Qed.

(** X8. [__get_oldest_snapshot_ids] returns identifiers from the end of the
    sorted list: [min n len] of them for a positive [n], but all [len] of
    them for [n = 0], and [len - |n|] of them (none beyond the length) for a
    negative [n]. *)
Theorem get_oldest_snapshot_ids_length l n :
  (exists k, get_oldest_snapshot_ids l n
             = map SnapshotId (drop k (sorted_newest_first l)))
  /\ Z.of_nat (length (get_oldest_snapshot_ids l n))
     = if 0 <? n then Z.min n (Z.of_nat (length l))
       else Z.max 0 (Z.of_nat (length l) + n).
Proof.
  unfold get_oldest_snapshot_ids, slice_from. split.
  - eexists. now rewrite skipn_map.
  - rewrite length_drop, !length_map, sorted_newest_first_length.
    destruct (Z.ltb_spec (- n) 0), (Z.ltb_spec 0 n); lia.
Qed.

(** ** The selection under any policy *)

Lemma select_snapshot_ids_drop policy snaps tag keep :
  policy !! tag = Some keep ->
  select_snapshot_ids policy snaps tag
  = map SnapshotId
      (drop (Z.to_nat keep)
            (sorted_newest_first (get_snapshots_by_backup_tag snaps tag))).
Proof.
  intros Hp. destruct (Z.lt_ge_cases keep 0) as [Hk|Hk].
  - rewrite (select_snapshot_ids_negative _ _ _ _ Hp Hk).
    now replace (Z.to_nat keep) with 0%nat by lia.
  - now apply select_snapshot_ids_present.
Qed.

(** X13. Whatever the policy says about a tier (a keep-count of any sign,
    or nothing), the tier's selection is made of the identifiers at the end
    of the group sorted newest first: no snapshot is selected while a
    snapshot of the group started before it is kept. *)
Theorem selection_is_oldest_suffix policy snaps tag :
  exists kept removed,
    sorted_newest_first (get_snapshots_by_backup_tag snaps tag)
    = kept ++ removed
    /\ select_snapshot_ids policy snaps tag = map SnapshotId removed
    /\ forall k d, In k kept -> In d removed -> StartTime d <= StartTime k.
Proof.
  set (sorted := sorted_newest_first (get_snapshots_by_backup_tag snaps tag)).
  assert (exists n, select_snapshot_ids policy snaps tag
                    = map SnapshotId (drop n sorted)) as [n Hn].
  { destruct (policy !! tag) as [keep|] eqn:Hp.
    - exists (Z.to_nat keep). now apply select_snapshot_ids_drop.
    - exists 0%nat. now apply select_snapshot_ids_absent. }
  exists (take n sorted), (drop n sorted).
  split; [now rewrite take_drop|]. split; [exact Hn|].
  apply sorted_app_newer. rewrite take_drop.
  apply sorted_newest_first_sorted.
Qed.

(** X14. Raising the keep-count of a tier never selects more: the selection
    under the larger count is the end of the selection under the smaller
    one. *)
Theorem selection_shrinks_with_keep policy snaps tag keep keep' :
  keep <= keep' ->
  exists spared,
    select_snapshot_ids (<[tag := keep]> policy) snaps tag
    = spared ++ select_snapshot_ids (<[tag := keep']> policy) snaps tag.
Proof.
  intros Hle.
  rewrite (select_snapshot_ids_drop _ snaps tag keep (lookup_insert_eq _ _ _)).
  rewrite (select_snapshot_ids_drop _ snaps tag keep' (lookup_insert_eq _ _ _)).
  set (sorted := sorted_newest_first (get_snapshots_by_backup_tag snaps tag)).
  exists (map SnapshotId
            (take (Z.to_nat keep' - Z.to_nat keep) (drop (Z.to_nat keep) sorted))).
  rewrite <- map_app. f_equal.
  rewrite <- (take_drop (Z.to_nat keep' - Z.to_nat keep)
                        (drop (Z.to_nat keep) sorted)) at 1.
  f_equal. rewrite drop_drop. f_equal. lia.
Qed.

Lemma selection_shrinks_with_keep_witness :
  1 <= 2
  /\ exists spared,
       select_snapshot_ids (<["h" := 1]> policy_A) snapshots_A "h"
       = spared ++ select_snapshot_ids (<["h" := 2]> policy_A) snapshots_A "h".
Proof.
  assert (1 <= 2) as H by lia.
  split; [exact H|].
  exact (selection_shrinks_with_keep policy_A snapshots_A "h" 1 2 H).
Defined.

(** ** Tier groups, snapshot by snapshot *)

Lemma flat_map_if_repeat {A B} (p : A -> bool) (x : B) (l : list A) :
  flat_map (fun y => if p y then [x] else []) l
  = repeat x (length (List.filter p l)).
Proof.
  induction l as [|y l IH]; simpl; [reflexivity|].
  destruct (p y); simpl; now rewrite IH.
Qed.

Lemma backup_tag_count_without_key tag x :
  has_BackupTag_key x = false -> backup_tag_count tag x = 0%nat.
Proof.
  unfold backup_tag_count. intros H.
  destruct (List.filter (is_backup_tag tag) (tags_of x)) as [|y l] eqn:E;
    [reflexivity|].
  assert (In y (List.filter (is_backup_tag tag) (tags_of x))) as Hy
    by (rewrite E; now left).
  apply filter_In in Hy as [Hy Hb]. apply is_backup_tag_true in Hb. subst y.
  assert (has_BackupTag_key x = true) as Ht
    by (apply has_BackupTag_key_true; now exists tag).
  congruence.
Qed.

(** X15. [__get_snapshots_by_backup_tag] goes through the listing in order
    and yields each snapshot once for every tag of it that is a
    [BackupTag] with the wanted value: its two preliminary filters never
    change the result. When no snapshot has the same [BackupTag] entry
    twice, the group is the listing filtered, each snapshot at most once. *)
Theorem group_counts_backup_tags snaps tag :
  get_snapshots_by_backup_tag snaps tag
  = flat_map (fun x => repeat x (backup_tag_count tag x)) snaps
  /\ ((forall x, In x snaps -> (backup_tag_count tag x <= 1)%nat) ->
      get_snapshots_by_backup_tag snaps tag
      = List.filter (fun x => existsb (is_backup_tag tag) (tags_of x)) snaps).
Proof.
  assert (get_snapshots_by_backup_tag snaps tag
          = flat_map (fun x => repeat x (backup_tag_count tag x)) snaps) as H.
  { unfold get_snapshots_by_backup_tag.
    induction snaps as [|x snaps IH]; [reflexivity|]. simpl.
    destruct (has_Tags x) eqn:Ht; simpl.
    - destruct (has_BackupTag_key x) eqn:Hk; simpl.
      + rewrite IH. f_equal. apply flat_map_if_repeat.
      + rewrite IH. now rewrite (backup_tag_count_without_key tag x Hk).
    - rewrite IH. unfold backup_tag_count, tags_of. unfold has_Tags in Ht.
      destruct (Tags x); [discriminate|reflexivity]. }
  split; [exact H|]. intros Hone. rewrite H. clear H.
  induction snaps as [|x snaps IH]; [reflexivity|]. simpl.
  rewrite IH by (intros y Hy; apply Hone; now right).
  pose proof (Hone x (or_introl eq_refl)) as Hx.
  unfold backup_tag_count in Hx |- *.
  induction (tags_of x) as [|y ts IHts]; [reflexivity|]. simpl in Hx |- *.
  destruct (is_backup_tag tag y); simpl in Hx |- *.
  - destruct (List.filter (is_backup_tag tag) ts); [reflexivity|simpl in Hx; lia].
  - now apply IHts.
Qed.

(** ** Creation, missing keys and undecodable policies *)

Section Further.
Context {R : Runtime}.

(** X7. [__create_snapshot] makes one creation request, tagged with the
    label the classifier gives for the time the clock shows, one of the five
    labels; a snapshot that carries the tags of this request is found by
    [__get_snapshots_by_backup_tag] in the group of that label and in no
    other group. *)
Theorem created_snapshot_joins_its_tier self volume_id s :
  let label := backup_tag_at self (fst (datetime_now (world s))) in
  In label backup_tags
  /\ (exists ok retval s',
        create_snapshot self volume_id s = (Return (ok, retval), s')
        /\ calls s' = calls s
                      ++ [mkCall (CreateSnapshot volume_id
                                    (snapshot_tags self label)) ok])
  /\ forall id state started tag,
       get_snapshots_by_backup_tag
         [mkSnapshot id state started (Some (snapshot_tags self label))] tag
       = if String.eqb label tag
         then [mkSnapshot id state started (Some (snapshot_tags self label))]
         else [].
Proof.
  intros label. split; [|split].
  - unfold label. generalize (fst (datetime_now (world s))). intros t.
    unfold backup_tag_at, backup_tags.
    destruct (yearly_boundary self t); [simpl; auto 10|].
    destruct (monthly_boundary self t); [simpl; auto 10|].
    destruct (weekly_boundary self t); [simpl; auto 10|].
    destruct (daily_boundary self t); simpl; auto 10.
  - unfold label, create_snapshot, get_backup_tag, bind, now, remote, log, ret.
    destruct (datetime_now (world s)) as [t w0]. simpl.
    destruct (ec2_create_snapshot volume_id _ w0) as [[i|e] w]; simpl.
    + exists true. do 2 eexists. split; reflexivity.
    + exists false. do 2 eexists. split; reflexivity.
  - intros id state started tag.
    unfold get_snapshots_by_backup_tag, has_Tags, has_BackupTag_key, tags_of,
      is_backup_tag, snapshot_tags. simpl.
    destruct (String.eqb label tag); reflexivity.
Qed.

Lemma event_get_missing event key s :
  event !! key = None ->
  event_get event key s = (Raise ("KeyError: " ++ key)%string, s).
Proof. intros H. unfold event_get. now rewrite H. Qed.

(** X4. When the event lacks one of the six keys that [__init__] reads,
    [__init__] raises the [KeyError] of the first key that is missing in
    reading order (every key read before it is present), before any request
    is made and before anything is logged. *)
Theorem init_missing_key event s key :
  In key required_keys ->
  event !! key = None ->
  exists before missing after,
    required_keys = before ++ missing :: after
    /\ (forall k, In k before -> is_Some (event !! k))
    /\ event !! missing = None
    /\ init event s = (Raise ("KeyError: " ++ missing)%string, s).
Proof.
  intros Hin Hnone.
  destruct (event !! "ProductDomain") as [pd|] eqn:E1.
  2:{ exists [], "ProductDomain". eexists. split; [reflexivity|].
      split; [intros k []|]. split; [exact E1|].
      unfold init, bind. now rewrite (event_get_missing _ _ _ E1). }
  destruct (event !! "Service") as [sv|] eqn:E2.
  2:{ exists ["ProductDomain"], "Service". eexists. split; [reflexivity|].
      split; [intros k [<-|[]]; eauto|]. split; [exact E2|].
      unfold init, bind.
      now rewrite (event_get_run _ _ _ _ E1), (event_get_missing _ _ _ E2). }
  destruct (event !! "Cluster") as [cl|] eqn:E3.
  2:{ exists ["ProductDomain"; "Service"], "Cluster". eexists.
      split; [reflexivity|].
      split; [intros k [<-|[<-|[]]]; eauto|]. split; [exact E3|].
      unfold init, bind.
      now rewrite (event_get_run _ _ _ _ E1), (event_get_run _ _ _ _ E2),
        (event_get_missing _ _ _ E3). }
  destruct (event !! "Application") as [app|] eqn:E4.
  2:{ exists ["ProductDomain"; "Service"; "Cluster"], "Application". eexists.
      split; [reflexivity|].
      split; [intros k [<-|[<-|[<-|[]]]]; eauto|]. split; [exact E4|].
      unfold init, bind.
      now rewrite (event_get_run _ _ _ _ E1), (event_get_run _ _ _ _ E2),
        (event_get_run _ _ _ _ E3), (event_get_missing _ _ _ E4). }
  destruct (event !! "RetentionPolicy") as [rp|] eqn:E5.
  2:{ exists ["ProductDomain"; "Service"; "Cluster"; "Application"],
        "RetentionPolicy". eexists. split; [reflexivity|].
      split; [intros k [<-|[<-|[<-|[<-|[]]]]]; eauto|]. split; [exact E5|].
      unfold init, bind.
      now rewrite (event_get_run _ _ _ _ E1), (event_get_run _ _ _ _ E2),
        (event_get_run _ _ _ _ E3), (event_get_run _ _ _ _ E4),
        (event_get_missing _ _ _ E5). }
  destruct (event !! "VolumeIDs") as [vids|] eqn:E6.
  2:{ exists ["ProductDomain"; "Service"; "Cluster"; "Application";
              "RetentionPolicy"], "VolumeIDs". eexists. split; [reflexivity|].
      split; [intros k [<-|[<-|[<-|[<-|[<-|[]]]]]]; eauto|].
      split; [exact E6|].
      unfold init, bind.
      now rewrite (event_get_run _ _ _ _ E1), (event_get_run _ _ _ _ E2),
        (event_get_run _ _ _ _ E3), (event_get_run _ _ _ _ E4),
        (event_get_run _ _ _ _ E5), (event_get_missing _ _ _ E6). }
  exfalso. simpl in Hin.
  destruct Hin as [<-|[<-|[<-|[<-|[<-|[<-|[]]]]]]]; congruence.
Qed.

(** The first half of a turn of the loop of [execute]: a creation request
    when no listed snapshot is pending, a warning and no request
    otherwise. *)
Lemma create_or_skip_run self volume_id snaps s :
  exists new ok retval s0,
    (match get_snapshots_by_state snaps "pending" with
     | [] => create_snapshot self volume_id
     | _ :: _ =>
         bind (log self WARNING volume_id
                   "Pending Snapshot Detected, Operation Aborted")
           (fun _ => ret (true, "Pending Snapshot Detected, Operation Aborted"))
     end) s = (Return (ok, retval), s0)
    /\ calls s0 = calls s ++ new
    /\ map operation new
       = match get_snapshots_by_state snaps "pending" with
         | [] => [Creation volume_id]
         | _ :: _ => []
         end
    /\ forallb succeeded new = ok
    /\ printed s0 = printed s
    /\ (get_snapshots_by_state snaps "pending" <> [] ->
        retval = "Pending Snapshot Detected, Operation Aborted").
Proof.
  destruct (get_snapshots_by_state snaps "pending").
  - destruct (create_snapshot_run self volume_id s)
      as (ok & retval & tags & s0 & E & Hc & Hp).
    exists [mkCall (CreateSnapshot volume_id tags) ok], ok, retval, s0.
    simpl. rewrite andb_true_r.
    do 5 (split; [first [assumption | reflexivity]|]). now intros [].
  - exists [], true. do 2 eexists. unfold bind, log, ret. simpl.
    rewrite app_nil_r. now repeat split.
Qed.

(** X5. When the policy text does not decode, [execute] on a non-empty
    dictionary of volumes raises the decoder's exception during the first
    volume, after the creation request of that volume (unless one of its
    snapshots is pending) and before any deletion; no other volume is
    processed and nothing is printed. *)
Theorem invalid_policy_raises_after_creation self e s item items :
  json_loads (retention_policy self) = Err e ->
  snapshots self = item :: items ->
  exists new s',
    execute self s = (Raise e, s')
    /\ calls s' = calls s ++ new
    /\ map operation new
       = match get_snapshots_by_state (snd item) "pending" with
         | [] => [Creation (fst item)]
         | _ :: _ => []
         end
    /\ printed s' = printed s.
Proof.
  intros Hj Hs. destruct item as [volume_id snaps].
  destruct (create_or_skip_run self volume_id snaps s)
    as (new & ok & retval & s0 & E0 & Hc0 & Hop0 & _ & Hp0 & _).
  exists new, s0. unfold execute. rewrite Hs. simpl.
  unfold bind at 1. unfold process_volume. unfold bind at 1. rewrite E0.
  unfold bind at 1. unfold delete_old_snapshots, loads. unfold bind at 1.
  rewrite Hj. unfold raise. now repeat split.
Qed.

(** X2. A volume with a pending snapshot gets no creation request: the turn
    of the loop of [execute] records the message "Pending Snapshot Detected,
    Operation Aborted" as the volume's [created] entry, counts it as a
    success, and goes on to request the deletions of the volume's
    selection. *)
Theorem pending_snapshot_skips_creation self policy volume_id snaps x fs rep s :
  json_loads (retention_policy self) = Ok policy ->
  is_Some (dict_get volume_id (snapshots self)) ->
  In x snaps ->
  State x = "pending" ->
  exists new entries s',
    process_volume self (volume_id, snaps) (fs, rep) s
    = (Return (fs && forallb succeeded new,
               mkReport
                 (dict_set volume_id
                    "Pending Snapshot Detected, Operation Aborted"
                    (created rep))
                 (dict_set volume_id entries (deleted rep))), s')
    /\ calls s' = calls s ++ new
    /\ map operation new
       = map Deletion (deletion_selection policy (listed_for self volume_id)).
Proof.
  intros Hj [l Hget] Hx Hstate.
  assert (get_snapshots_by_state snaps "pending" <> []) as Hpending.
  { intros Hnil.
    assert (In x (get_snapshots_by_state snaps "pending")) as Hin.
    { apply filter_In. split; [exact Hx|]. rewrite Hstate. reflexivity. }
    now rewrite Hnil in Hin. }
  destruct (create_or_skip_run self volume_id snaps s)
    as (new0 & ok & retval & s0 & E0 & Hc0 & Hop0 & Hok & Hp0 & Hmsg).
  destruct (get_snapshots_by_state snaps "pending") as [|p ps] eqn:Ep;
    [contradiction|].
  specialize (Hmsg Hpending). subst retval.
  destruct new0; [|discriminate]. simpl in Hok. subst ok.
  rewrite app_nil_r in Hc0.
  destruct (delete_old_snapshots_run self volume_id policy l s0 Hj Hget)
    as (new1 & entries & s1 & E1 & Hc1 & Hop1 & _ & _).
  exists new1, entries, s1.
  unfold process_volume, listed_for. rewrite Ep, Hget.
  unfold bind at 1. rewrite E0. unfold bind. rewrite E1. unfold ret.
  rewrite Hc1, Hc0, andb_true_r. now repeat split.
Qed.

(** ** The report and the requests of a run *)





(** X11. [execute] makes no listing request, and every deletion it
    requests is for the identifier of a snapshot that was listed for one of
    its volumes and carries a [BackupTag] with one of the five labels; so
    an identifier that no listed snapshot of its volumes bears is never
    deleted by the run. *)
Theorem execute_deletes_only_listed self policy s :
  json_loads (retention_policy self) = Ok policy ->
  exists final_status report s' new,
    execute self s = (Return (final_status, report), s')
    /\ calls s' = calls s ++ new
    /\ (forall c volume_id, In c new ->
                            request c <> DescribeSnapshots volume_id)
    /\ (forall c snapshot_id,
          In c new -> request c = DeleteSnapshot snapshot_id ->
          exists volume_id x tag,
            In volume_id (map fst (snapshots self))
            /\ In x (listed_for self volume_id)
            /\ SnapshotId x = snapshot_id
            /\ In tag backup_tags
            /\ carries x "BackupTag" tag)
    /\ forall snapshot_id,
         (forall volume_id x,
            In volume_id (map fst (snapshots self)) ->
            In x (listed_for self volume_id) ->
            SnapshotId x <> snapshot_id) ->
         forall c, In c new -> request c <> DeleteSnapshot snapshot_id.
Proof.
  intros Hj.
  destruct (execute_run self policy s Hj)
    as (new & report & s' & E & Hc & Hop & _ & _).
  exists (forallb succeeded new), report, s', new.
  do 2 (split; [assumption|]).
  assert (forall c, In c new ->
            exists item, In item (snapshots self)
                         /\ In (operation c) (volume_operations policy self item))
    as Hin.
  { intros c Hc'. apply (in_map operation) in Hc'. rewrite Hop in Hc'.
    now apply in_flat_map in Hc'. }
  assert (forall c snapshot_id,
            In c new -> request c = DeleteSnapshot snapshot_id ->
            exists volume_id x tag,
              In volume_id (map fst (snapshots self))
              /\ In x (listed_for self volume_id)
              /\ SnapshotId x = snapshot_id
              /\ In tag backup_tags
              /\ carries x "BackupTag" tag) as Hdel.
  { intros c snapshot_id Hc' Hreq.
    destruct (Hin c Hc') as (item & Hitem_in & Hitem).
    unfold operation in Hitem. rewrite Hreq in Hitem.
    unfold volume_operations in Hitem. apply in_app_or in Hitem as [H|H].
    - destruct (get_snapshots_by_state _ _); [|contradiction].
      destruct H as [H|[]]. discriminate.
    - apply in_map_iff in H as (i & [= ->] & Hsel).
      apply selection_needs_tier_label in Hsel
        as (x & tag & Hx & Hid & Htag & Hcar).
      exists (fst item), x, tag. repeat split; try assumption.
      now apply in_map. }
  split; [|split; [exact Hdel|]].
  - intros c volume_id Hc' Hreq.
    destruct (Hin c Hc') as (item & _ & Hitem).
    unfold operation in Hitem. rewrite Hreq in Hitem.
    unfold volume_operations in Hitem. apply in_app_or in Hitem as [H|H].
    + destruct (get_snapshots_by_state _ _); [|contradiction].
      destruct H as [H|[]]. discriminate.
    + apply in_map_iff in H as (i & H & _). discriminate.
  - intros snapshot_id Hfresh c Hc' Hreq.
    destruct (Hdel c snapshot_id Hc' Hreq) as (v & x & _ & Hv & Hx & Hid & _).
    exact (Hfresh v x Hv Hx Hid).
Qed.

Lemma dict_set_keys_In {V} k (v : V) d k' :
  In k' (map fst (dict_set k v d)) <-> k' = k \/ In k' (map fst d).
Proof.
  induction d as [|[k0 v0] d IH]; simpl.
  - intuition congruence.
  - destruct (String.eqb_spec k0 k) as [->|Hne]; simpl.
    + intuition congruence.
    + rewrite IH. intuition congruence.
Qed.

Lemma dict_set_keys_NoDup {V} k (v : V) d :
  List.NoDup (map fst d) -> List.NoDup (map fst (dict_set k v d)).
Proof.
  induction d as [|[k0 v0] d IH]; simpl; intros Hnd.
  - constructor; [intros []|constructor].
  - apply List.NoDup_cons_iff in Hnd as [Hk0 Hnd].
    destruct (String.eqb_spec k0 k) as [->|Hne]; simpl.
    + now apply List.NoDup_cons_iff.
    + apply List.NoDup_cons_iff. split; [|now apply IH].
      rewrite dict_set_keys_In. intros [->|H]; contradiction.
Qed.

Lemma dict_set_keys_new {V} k (v : V) d :
  ~ In k (map fst d) -> map fst (dict_set k v d) = map fst d ++ [k].
Proof.
  induction d as [|[k0 v0] d IH]; simpl; intros Hk; [reflexivity|].
  destruct (String.eqb_spec k0 k) as [->|Hne]; simpl.
  - exfalso. apply Hk. now left.
  - f_equal. apply IH. intros H. apply Hk. now right.
Qed.

Lemma execute_loop_keys self policy items :
  json_loads (retention_policy self) = Ok policy ->
  (forall item, In item items ->
                is_Some (dict_get (fst item) (snapshots self))) ->
  List.NoDup (map fst items) ->
  forall fs rep s,
  (forall k, In k (map fst items) ->
             ~ In k (map fst (created rep)) /\ ~ In k (map fst (deleted rep))) ->
  exists fs' rep' s',
    for_each items (process_volume self) (fs, rep) s = (Return (fs', rep'), s')
    /\ map fst (created rep') = map fst (created rep) ++ map fst items
    /\ map fst (deleted rep') = map fst (deleted rep) ++ map fst items.
Proof.
  intros Hj. induction items as [|item items IH];
    intros Hitems Hnd fs rep s Hfresh.
  - exists fs, rep, s. simpl. unfold ret. now rewrite !app_nil_r.
  - simpl in Hnd. apply List.NoDup_cons_iff in Hnd as [Hitem Hnd].
    destruct (process_volume_run self policy item fs rep s Hj)
      as (new1 & retval & entries & s1 & E1 & _);
      [apply Hitems; now left|].
    destruct (Hfresh (fst item)) as [Hc Hd]; [now left|].
    destruct (IH (fun i Hi => Hitems i (or_intror Hi)) Hnd
                (fs && forallb succeeded new1)
                (mkReport (dict_set (fst item) retval (created rep))
                          (dict_set (fst item) entries (deleted rep))) s1)
      as (fs' & rep' & s' & E' & Hkc & Hkd).
    { intros k Hk. simpl. rewrite !dict_set_keys_In.
      destruct (Hfresh k) as [Hc' Hd']; [now right|].
      split; intros [->|H]; contradiction. }
    exists fs', rep', s'.
    rewrite (for_each_cons_Return _ _ _ _ _ _ _ E1), E'.
    simpl in Hkc, Hkd.
    rewrite Hkc, Hkd, !dict_set_keys_new by assumption.
    simpl. now rewrite <- !app_assoc.
Qed.

(** X12. When the volumes of [self.snapshots] are distinct, as in a
    dictionary, the [created] and the [deleted] parts of the report of
    [execute] have exactly these volumes as keys, in the same order. *)
Theorem report_keys_are_the_volumes self policy s :
  json_loads (retention_policy self) = Ok policy ->
  List.NoDup (map fst (snapshots self)) ->
  exists final_status report s',
    execute self s = (Return (final_status, report), s')
    /\ map fst (created report) = map fst (snapshots self)
    /\ map fst (deleted report) = map fst (snapshots self).
Proof.
  intros Hj Hnd.
  destruct (execute_loop_keys self policy (snapshots self) Hj) with
    (fs := true) (rep := mkReport [] []) (s := s)
    as (fs' & rep' & s' & E & Hc & Hd); try assumption.
  - intros [v l] Hin. simpl. now apply (dict_get_In v l).
  - intros k _. simpl. now split.
  - now exists fs', rep', s'.
Qed.

Lemma list_volume_keys self volume_id status d s :
  exists ok d' s',
    list_volume self volume_id (status, d) s = (Return (status && ok, d'), s')
    /\ if ok then exists l, d' = dict_set volume_id l d else d' = d.
Proof.
  unfold list_volume, bind, remote, log, ret.
  destruct (ec2_describe_snapshots volume_id (world s)) as [[l|e] w]; simpl.
  - exists true. do 2 eexists. rewrite andb_true_r. split; [reflexivity|].
    now exists l.
  - exists false. do 2 eexists. rewrite andb_false_r. now split.
Qed.

Lemma list_volumes_keys self vids : forall status d s,
  exists ok d' s',
    for_each vids (list_volume self) (status, d) s
    = (Return (status && ok, d'), s')
    /\ (ok = true ->
        (forall k, In k (map fst d') <-> In k (map fst d) \/ In k vids)
        /\ (List.NoDup (map fst d) -> List.NoDup (map fst d'))).
Proof.
  induction vids as [|v vids IH]; intros status d s.
  - exists true, d, s. simpl. unfold ret. rewrite andb_true_r.
    split; [reflexivity|]. intros _. split; [intuition|auto].
  - destruct (list_volume_keys self v status d s) as (ok1 & d1 & s1 & E1 & Hd1).
    destruct (IH (status && ok1) d1 s1) as (ok2 & d2 & s2 & E2 & Hd2).
    exists (ok1 && ok2), d2, s2.
    rewrite (for_each_cons_Return _ _ _ _ _ _ _ E1), E2, andb_assoc.
    split; [reflexivity|]. intros Hok.
    apply andb_true_iff in Hok as [-> Hok2].
    destruct (Hd2 Hok2) as [Hin Hnd]. destruct Hd1 as (l & ->). split.
    + intros k. rewrite Hin, dict_set_keys_In. simpl. intuition.
    + intros H. now apply Hnd, dict_set_keys_NoDup.
Qed.

(** X1. When [__get_all_snapshots] returns, every volume of [volume_ids]
    was listed in order and every listing succeeded; the dictionary it
    returns has each of these volumes as a key exactly once, so that a
    volume named several times is listed that many times and processed
    once. *)
Theorem listed_volumes_are_distinct self s d s' :
  get_all_snapshots self s = (Return d, s') ->
  List.NoDup (map fst d)
  /\ (forall v, In v (map fst d) <-> In v (volume_ids self))
  /\ exists new,
       calls s' = calls s ++ new
       /\ map operation new = map Listing (volume_ids self)
       /\ forallb succeeded new = true.
Proof.
  intros H.
  destruct (list_volumes_keys self (volume_ids self) true [] s)
    as (ok & d' & s1 & E & Hkeys).
  assert (ok = true /\ d' = d) as [-> ->].
  { unfold get_all_snapshots, bind in H.
    match type of H with
    | context [for_each ?l ?body ?acc s] =>
        replace (for_each l body acc s) with (Return (true && ok, d'), s1) in H
          by (symmetry; exact E)
    end.
    simpl in H. destruct ok; simpl in H; [|discriminate].
    unfold ret in H. injection H as -> _. now split. }
  destruct (Hkeys eq_refl) as [Hin Hnd].
  split; [apply Hnd; constructor|]. split.
  - intros v. rewrite Hin. simpl. intuition.
  - destruct (get_all_snapshots_run self s) as (new & s2 & Hc & Hop & _ & E').
    exists new. destruct (forallb succeeded new).
    + destruct E' as (d0 & E'). rewrite H in E'. injection E' as _ <-.
      now repeat split.
    + rewrite H in E'. discriminate.
Qed.

End Further.

(** ** The further properties on the scripted runtime *)

Lemma init_missing_key_witness :
  In "VolumeIDs" required_keys
  /\ event_no_volumes !! "VolumeIDs" = None
  /\ exists before missing after,
       required_keys = before ++ missing :: after
       /\ (forall k, In k before -> is_Some (event_no_volumes !! k))
       /\ event_no_volumes !! missing = None
       /\ init (R:=scripted) event_no_volumes (start (R:=scripted) cloud_D)
          = (Raise ("KeyError: " ++ missing)%string,
             start (R:=scripted) cloud_D).
Proof.
  assert (In "VolumeIDs" required_keys) as H1 by (simpl; auto 10).
  assert (event_no_volumes !! "VolumeIDs" = None) as H2
    by (vm_compute; reflexivity).
  split; [exact H1|]. split; [exact H2|].
  exact (init_missing_key (R:=scripted) event_no_volumes
           (start (R:=scripted) cloud_D) "VolumeIDs" H1 H2).
Defined.

(** On the empty event, where all six keys are missing, the error names
    the key that is read first. *)
Example init_empty_event :
  init (R:=scripted) ∅ (start (R:=scripted) cloud_D)
  = (Raise "KeyError: ProductDomain", start (R:=scripted) cloud_D).
Proof. vm_compute. reflexivity. Qed.

Lemma invalid_policy_raises_after_creation_witness :
  @json_loads scripted (retention_policy self_bad_policy)
  = Err "JSONDecodeError"
  /\ exists new s',
       execute (R:=scripted) self_bad_policy (start (R:=scripted) cloud_D)
       = (Raise "JSONDecodeError", s')
       /\ calls s' = calls (start (R:=scripted) cloud_D) ++ new
       /\ map operation new = [Creation "vol-1"]
       /\ printed s' = printed (start (R:=scripted) cloud_D).
Proof.
  assert (@json_loads scripted (retention_policy self_bad_policy)
          = Err "JSONDecodeError") as H by reflexivity.
  split; [exact H|].
  exact (invalid_policy_raises_after_creation (R:=scripted) self_bad_policy
           "JSONDecodeError" (start (R:=scripted) cloud_D)
           ("vol-1", snapshots_A) [("vol-2", snapshots_D2)] H eq_refl).
Defined.

Lemma pending_snapshot_skips_creation_witness :
  @json_loads scripted (retention_policy self_P) = Ok policy_A
  /\ exists new entries s',
       process_volume (R:=scripted) self_P ("vol-1", snapshots_P)
         (true, mkReport [] []) (start (R:=scripted) cloud_P)
       = (Return (true && forallb succeeded new,
                  mkReport
                    (dict_set "vol-1"
                       "Pending Snapshot Detected, Operation Aborted" [])
                    (dict_set "vol-1" entries [])), s')
       /\ calls s' = calls (start (R:=scripted) cloud_P) ++ new
       /\ map operation new
          = map Deletion (deletion_selection policy_A
                            (listed_for self_P "vol-1")).
Proof.
  assert (@json_loads scripted (retention_policy self_P) = Ok policy_A) as H1
    by reflexivity.
  assert (is_Some (dict_get "vol-1" (snapshots self_P))) as H2
    by (vm_compute; eauto).
  split; [exact H1|].
  refine (pending_snapshot_skips_creation (R:=scripted) self_P policy_A "vol-1"
            snapshots_P
            (mkSnapshot "snap-4" "pending" 400
               (Some [mkTag "Name" "cluster-a"; mkTag "BackupTag" "h"]))
            true (mkReport [] []) (start (R:=scripted) cloud_P)
            H1 H2 _ eq_refl).
  simpl. auto 10.
Defined.


Lemma execute_deletes_only_listed_witness :
  @json_loads scripted (retention_policy self_D) = Ok policy_A
  /\ exists final_status report s' new,
       execute (R:=scripted) self_D (start (R:=scripted) cloud_D)
       = (Return (final_status, report), s')
       /\ calls s' = calls (start (R:=scripted) cloud_D) ++ new
       /\ (forall c volume_id, In c new ->
                               request c <> DescribeSnapshots volume_id)
       /\ (forall c snapshot_id,
             In c new -> request c = DeleteSnapshot snapshot_id ->
             exists volume_id x tag,
               In volume_id (map fst (snapshots self_D))
               /\ In x (listed_for self_D volume_id)
               /\ SnapshotId x = snapshot_id
               /\ In tag backup_tags
               /\ carries x "BackupTag" tag)
       /\ forall snapshot_id,
            (forall volume_id x,
               In volume_id (map fst (snapshots self_D)) ->
               In x (listed_for self_D volume_id) ->
               SnapshotId x <> snapshot_id) ->
            forall c, In c new -> request c <> DeleteSnapshot snapshot_id.
Proof.
  assert (@json_loads scripted (retention_policy self_D) = Ok policy_A) as H
    by reflexivity.
  split; [exact H|].
  exact (execute_deletes_only_listed (R:=scripted) self_D policy_A
           (start (R:=scripted) cloud_D) H).
Defined.

Lemma report_keys_are_the_volumes_witness :
  @json_loads scripted (retention_policy self_D) = Ok policy_A
  /\ List.NoDup (map fst (snapshots self_D))
  /\ exists final_status report s',
       execute (R:=scripted) self_D (start (R:=scripted) cloud_D)
       = (Return (final_status, report), s')
       /\ map fst (created report) = ["vol-1"; "vol-2"]
       /\ map fst (deleted report) = ["vol-1"; "vol-2"].
Proof.
  assert (@json_loads scripted (retention_policy self_D) = Ok policy_A) as H1
    by reflexivity.
  assert (List.NoDup (map fst (snapshots self_D))) as H2.
  { simpl. repeat (constructor; [simpl; intuition discriminate|]).
    constructor. }
  split; [exact H1|]. split; [exact H2|].
  exact (report_keys_are_the_volumes (R:=scripted) self_D policy_A
           (start (R:=scripted) cloud_D) H1 H2).
Defined.

Lemma listed_volumes_are_distinct_witness :
  exists d s',
    get_all_snapshots (R:=scripted) self_twice (start (R:=scripted) cloud_D)
    = (Return d, s')
    /\ map fst d = ["vol-1"; "vol-2"]
    /\ List.NoDup (map fst d)
    /\ exists new,
         calls s' = calls (start (R:=scripted) cloud_D) ++ new
         /\ map operation new
            = [Listing "vol-1"; Listing "vol-2"; Listing "vol-1"]
         /\ forallb succeeded new = true.
Proof.
  destruct (get_all_snapshots (R:=scripted) self_twice
              (start (R:=scripted) cloud_D)) as [[d| |] s'] eqn:H;
    [|vm_compute in H; discriminate H ..].
  exists d, s'. split; [reflexivity|].
  pose proof (listed_volumes_are_distinct (R:=scripted) self_twice _ d s' H)
    as T.
  split; [vm_compute in H; injection H as <- _; reflexivity|].
  split; [exact (proj1 T) | exact (proj2 (proj2 T))].
Defined.


(** Scenario C, and a run whose creation fails: the run with a pending
    snapshot deletes the oldest of the four hourly snapshots and creates
    nothing; the run of scenario D prints its report and exits with status
    -1. *)
Example scenario_C :
  let '(result, s') :=
    execute (R:=scripted) self_P (start (R:=scripted) cloud_P) in
  result
  = Return
      (true,
       mkReport
         [("vol-1", "Pending Snapshot Detected, Operation Aborted")]
         [("vol-1", ["snap-2"; "snap-1"])])
  /\ map (fun c => (operation c, succeeded c)) (calls s')
     = [(Deletion "snap-2", true); (Deletion "snap-1", true)].
Proof. vm_compute. split; reflexivity. Qed.

Example scenario_D_handler :
  let '(result, s') :=
    lambda_handler (R:=scripted) event_F (start (R:=scripted) cloud_D) in
  result = Exit (-1) /\ length (printed s') = 1%nat.
Proof. vm_compute. split; reflexivity. Qed.
